(** * ATM simulator (atm_sim_py.py): aircraft tasks, bounded queue, control tower

    A shallow embedding of [atm_sim_py.py] and the properties of its
    validation function, of the aircraft random walk, of the tower's
    draining loop and of the orchestration in [main].

    - Python floats are IEEE binary64 numbers.  A finite binary64 value is
      a rational, so the numeric fields are modelled in [Q] and every
      arithmetic operation is followed by its rounding (to nearest, ties to
      even, 53 bits, gradual underflow), written out in [Binary64.rnd].
      Infinities and NaN are outside the model, and so is overflow: no
      operation of the program gets near 2^1024.
    - asyncio runs the coroutines one at a time and switches between them
      at [await] only.  Each coroutine is a small state machine whose
      states are its suspension points, and [step] runs one of them from
      one point to the next.  The scheduler's choices, the clock and the
      signals are the labels of the steps.  The steps are finer than
      those of asyncio (a [put] on a queue that has room, or the test of
      a loop, is a step of its own) and a wait on the queue may time out
      at any moment, so every interleaving of the program is one of the
      model.
    - [random.Random(seed)] and the file system are parameters: a
      function from the seed to the stream of values that [random()]
      returns, and a function that tells whether a path can be opened. *)

From Stdlib Require Import ZArith QArith Qround Qabs Qpower Lia Lqa Bool.
From Stdlib Require Import PrimFloat FloatOps SpecFloat.
From stdpp Require Import base tactics option list strings.

Local Open Scope string_scope.
Local Open Scope list_scope.

(** * Binary64 arithmetic on rationals *)

Module Binary64.
Local Open Scope Q_scope.

Definition prec : Z := 53.
Definition emin : Z := (-1074).

Definition pow2 (e : Z) : Q := 2 ^ e.

(** [ilog2 q] is the integer part of the base-2 logarithm of [q > 0]:
    the difference of the bit lengths of numerator and denominator is at
    most one above it. *)
Definition ilog2 (q : Q) : Z :=
  let l := (Z.log2 (Qnum q) - Z.log2 (Zpos (Qden q)))%Z in
  if Qle_bool (pow2 l) q then l else (l - 1)%Z.

(** Exponent of the last kept bit: 53 significant bits, and never below
    the exponent of the smallest subnormal. *)
Definition fexp (q : Q) : Z := Z.max (ilog2 q - (prec - 1)) emin.

Definition round_half_even (q : Q) : Z :=
  let f := Qfloor q in
  match Qcompare (q - inject_Z f) (1 # 2) with
  | Lt => f
  | Gt => (f + 1)%Z
  | Eq => if Z.even f then f else (f + 1)%Z
  end.

Definition rnd_pos (q : Q) : Q :=
  let e := fexp q in
  inject_Z (round_half_even (q / pow2 e)) * pow2 e.

Definition rnd (q : Q) : Q :=
  match Qcompare q 0 with
  | Eq => 0
  | Gt => rnd_pos q
  | Lt => - rnd_pos (- q)
  end.

Definition fadd (x y : Q) : Q := rnd (x + y).
Definition fsub (x y : Q) : Q := rnd (x - y).
Definition fmul (x y : Q) : Q := rnd (x * y).
Definition fdiv (x y : Q) : Q := rnd (x / y).

(** A decimal literal of the source denotes the nearest binary64 value. *)
Definition lit (q : Q) : Q := rnd q.

Definition Qlt_bool (x y : Q) : bool := negb (Qle_bool y x).

End Binary64.

Import Binary64.

(** * Python builtins used by the program *)

Module Py.
Local Open Scope Q_scope.

(** [min(a, b)] and [max(a, b)] keep their first argument unless the
    second one is strictly smaller (resp. larger). *)
Definition min (a b : Q) : Q := if Qlt_bool b a then b else a.
Definition max (a b : Q) : Q := if Qlt_bool a b then b else a.

(** C's [fmod]: the exact remainder of the division truncated toward zero. *)
Definition Qtrunc (q : Q) : Z := if Qle_bool 0 q then Qfloor q else Qceiling q.
Definition fmod (x y : Q) : Q := x - y * inject_Z (Qtrunc (x / y)).

(** [x % y] on floats (CPython's [float_rem]): [fmod], then one addition
    of [y] when the signs differ; a zero remainder takes the sign of [y].
    [y = 0] raises ZeroDivisionError in Python; the only divisor in this
    program is the literal 360. *)
Definition float_rem (x y : Q) : Q :=
  let m := fmod x y in
  if Qeq_bool m 0 then 0
  else if xorb (Qlt_bool y 0) (Qlt_bool m 0) then fadd m y
  else m.

(** The generator: the stream of the values of [random()], each a
    multiple of 2^-53 in [0, 1), and the number of values consumed. *)
Record Random := mkRandom { stream : nat -> Q; consumed : nat }.

Definition random (g : Random) : Q * Random :=
  (stream g (consumed g), mkRandom (stream g) (S (consumed g))).

(** [uniform(a, b)] is [a + (b - a) * self.random()]. *)
Definition uniform (a b : Q) (g : Random) : Q * Random :=
  let (r, g') := random g in
  (fadd a (fmul (fsub b a) r), g').

End Py.

(** * Configuration *)

Record Config := mkConfig {
  NUM_AIRCRAFT : nat;
  RUNTIME_SECONDS : nat;
  MIN_SEND_MS : nat;
  MAX_SEND_MS : nat;
  LOG_CSV : string;
  PRINT_PROGRESS_EVERY : nat
}.

Definition CONFIG : Config :=
  {| NUM_AIRCRAFT := 5;
     RUNTIME_SECONDS := 12;
     MIN_SEND_MS := 120;
     MAX_SEND_MS := 500;
     LOG_CSV := "atm_log.csv";
     PRINT_PROGRESS_EVERY := 50 |}.

(** * Data model *)

Record Message := mkMessage {
  aircraft_id : nat;
  latitude : Q;
  longitude : Q;
  altitude_ft : Q;
  speed_kt : Q;
  heading_deg : Q;
  status : string;
  ts : string
}.

Definition between (lo x hi : Q) : bool := Qle_bool lo x && Qle_bool x hi.

Definition validate (msg : Message) : bool :=
  if negb (between (-90) (latitude msg) 90) then false
  else if negb (between (-180) (longitude msg) 180) then false
  else if negb (between 0 (altitude_ft msg) 60000) then false
  else if negb (between 0 (speed_kt msg) 700) then false
  else if negb (between 0 (heading_deg msg) 360) then false
  else true.

(** * Aircraft task *)

(** The local variables of [aircraft_task]. *)
Record Aircraft := mkAircraft {
  ac_id : nat;
  rng : Py.Random;
  lat : Q;
  lon : Q;
  alt : Q;
  spd : Q;
  hdg : Q
}.

Section AircraftTask.
Local Open Scope Q_scope.

(** [random.Random(seed)]. *)
Variable Random_seeded : Z -> Py.Random.
Variable cfg : Config.

(** Lines 59-65: the generator and the starting state. *)
Definition aircraft_start (id : nat) : Aircraft :=
  let g := Random_seeded (Z.of_nat id * 7331)%Z in
  let (lat0, g) := Py.uniform (-60) 60 g in
  let (lon0, g) := Py.uniform (-120) 120 g in
  let (alt0, g) := Py.uniform 10000 39000 g in
  let (spd0, g) := Py.uniform 250 480 g in
  let (hdg0, g) := Py.uniform 0 360 g in
  mkAircraft id g lat0 lon0 alt0 spd0 hdg0.

(** Lines 68-91: one pass through the loop body up to the message. *)
Definition aircraft_tick (now : string) (a : Aircraft) : Aircraft * Message :=
  let g := rng a in
  let (d, g) := Py.uniform (- lit (5 # 100)) (lit (5 # 100)) g in
  let lat1 := fadd (lat a) d in
  let (d, g) := Py.uniform (- lit (5 # 100)) (lit (5 # 100)) g in
  let lon1 := fadd (lon a) d in
  let (d, g) := Py.uniform (-400) 400 g in
  let alt1 := fadd (alt a) d in
  let alt1 := Py.max 0 (Py.min alt1 60000) in
  let (d, g) := Py.uniform (-10) 10 g in
  let spd1 := fadd (spd a) d in
  let spd1 := Py.max 0 (Py.min spd1 700) in
  let (d, g) := Py.uniform (-5) 5 g in
  let hdg1 := Py.float_rem (fadd (hdg a) d) 360 in
  let (r, g) := Py.random g in
  let status := if Qlt_bool r (lit (2 # 100)) then "WARN" else "OK" in
  (mkAircraft (ac_id a) g lat1 lon1 alt1 spd1 hdg1,
   mkMessage (ac_id a) lat1 lon1 alt1 spd1 hdg1 status now).

(** Line 95: the argument of [asyncio.sleep]. *)
Definition aircraft_delay (a : Aircraft) : Q * Aircraft :=
  let (d, g) :=
    Py.uniform (fdiv (inject_Z (Z.of_nat (MIN_SEND_MS cfg))) 1000)
               (fdiv (inject_Z (Z.of_nat (MAX_SEND_MS cfg))) 1000) (rng a) in
  (d, mkAircraft (ac_id a) g (lat a) (lon a) (alt a) (spd a) (hdg a)).

(** Lines 98-102. *)
Definition bye_message (id : nat) (now : string) : Message :=
  mkMessage id 0 0 0 0 0 "BYE" now.

End AircraftTask.

(** * Control tower *)

Inductive CsvRow :=
| CsvHeader (fieldnames : list string)
| CsvData (msg : Message) (valid : nat).

Record CsvFile := mkCsvFile { rows : list CsvRow; closed : bool }.

(** What the program prints, one constructor per [print] call. *)
Inductive Line :=
| TowerBye (id : nat) (ts : string) (byes n : nat)
| TowerProgress (processed rejected : nat)
| TowerRejected (id : nat) (ts : string) (lat lon alt : Q)
| TowerFinal (processed rejected byes : nat)
| InfoStopRequested
| InfoRunning (runtime n : nat)
| InfoComplete (path : string).

Inductive Exn := OSError | ZeroDivisionError.

(** The fields of a [ControlTower] but [q], which is the shared queue.
    [writer] tells whether [self.writer] is set. *)
Record ControlTower := mkControlTower {
  csv_path : option string;
  processed : nat;
  rejected : nat;
  byes : nat;
  writer : bool;
  csv_file : option CsvFile
}.

Definition ControlTower_init (csv_path : option string) : ControlTower :=
  mkControlTower csv_path 0 0 0 false None.

Definition fieldnames : list string :=
  ["aircraft_id"; "latitude"; "longitude"; "altitude_ft"; "speed_kt";
   "heading_deg"; "status"; "ts"] ++ ["valid"].

Definition truthy (s : option string) : bool :=
  match s with
  | Some s => negb (String.eqb s "")
  | None => false
  end.

(** [__aenter__]; [can_open] tells whether [open(path, "w")] succeeds. *)
Definition ControlTower_aenter (can_open : string -> bool) (t : ControlTower)
  : Exn + ControlTower :=
  match csv_path t with
  | Some path =>
      if truthy (csv_path t) then
        if can_open path then
          inr (mkControlTower (csv_path t) (processed t) (rejected t) (byes t)
                 true (Some (mkCsvFile [CsvHeader fieldnames] false)))
        else inl OSError
      else inr t
  | None => inr t
  end.

(** [__aexit__]. *)
Definition ControlTower_aexit (t : ControlTower) : ControlTower :=
  match csv_file t with
  | Some f =>
      mkControlTower (csv_path t) (processed t) (rejected t) (byes t)
        (writer t) (Some (mkCsvFile (rows f) true))
  | None => t
  end.

Definition writerow (r : CsvRow) (f : option CsvFile) : option CsvFile :=
  match f with
  | Some f => Some (mkCsvFile (rows f ++ [r]) (closed f))
  | None => None
  end.

(** Lines 133-150: the body of the loop of [run] once [q.get()] has
    returned [msg].  The result is the tower, the lines printed and the
    exception that ended the body, if any. *)
Definition ControlTower_run_body (cfg : Config) (num_aircraft : nat)
    (msg : Message) (t : ControlTower)
  : ControlTower * list Line * option Exn :=
  if String.eqb (status msg) "BYE" then
    let b := S (byes t) in
    (mkControlTower (csv_path t) (processed t) (rejected t) b
       (writer t) (csv_file t),
     [TowerBye (aircraft_id msg) (ts msg) b num_aircraft], None)
  else
    let is_valid := validate msg in
    let p := if is_valid then S (processed t) else processed t in
    let r := if is_valid then rejected t else S (rejected t) in
    let t1 := mkControlTower (csv_path t) p r (byes t) (writer t) (csv_file t) in
    if is_valid && Nat.eqb (PRINT_PROGRESS_EVERY cfg) 0 then
      (t1, [], Some ZeroDivisionError)
    else
      let out :=
        if is_valid then
          if Nat.eqb (p mod PRINT_PROGRESS_EVERY cfg) 0
          then [TowerProgress p r] else []
        else [TowerRejected (aircraft_id msg) (ts msg) (latitude msg)
                (longitude msg) (altitude_ft msg)] in
      let f :=
        if writer t then
          writerow (CsvData msg (if is_valid then 1 else 0)) (csv_file t)
        else csv_file t in
      (mkControlTower (csv_path t) p r (byes t) (writer t) f, out, None).

(** Line 127: the condition of the loop of [run]. *)
Definition ControlTower_run_test (running : bool) (num_aircraft : nat)
    (t : ControlTower) : bool :=
  running || Nat.ltb (byes t) num_aircraft.

(** * The event loop: tasks, queue and orchestrator *)

(** Where a task created from [aircraft_task] stands. *)
Inductive Task :=
| AcCreated (id : nat)                  (* created, body not entered *)
| AcLoop (a : Aircraft)                 (* at the test of the while loop *)
| AcPut (a : Aircraft) (msg : Message)  (* at [await q.put(msg)] *)
| AcSleep (a : Aircraft) (delay : Q)    (* in [await asyncio.sleep(..)] *)
| AcBye (msg : Message)                 (* at the final [await q.put(..)] *)
| AcDone.                               (* returned *)

(** Where [main] stands. *)
Inductive MainPc :=
| MStart              (* not started *)
| MWindow             (* in [await asyncio.sleep(RUNTIME_SECONDS)] *)
| MRunTest            (* in [tower.run], at the test of the while loop *)
| MRunGet             (* in [tower.run], at [await wait_for(q.get())] *)
| MGather             (* at [await asyncio.gather(..)] *)
| MDone               (* returned *)
| MRaised (e : Exn)   (* left by an exception *)
| MExit (code : nat). (* [sys.exit] in the signal handler *)

(** The state of a run.  [running] is [stop_event]; [pushed] and [popped]
    record every message that went into and out of the queue, oldest
    first: they are histories, the program does not read them. *)
Record World := mkWorld {
  running : bool;
  queue : list Message;
  tasks : list Task;
  tower : ControlTower;
  console : list Line;
  mpc : MainPc;
  pushed : list Message;
  popped : list Message
}.

Inductive Label :=
| LMain                       (* the main task runs to its next await *)
| LGet (timed_out : bool)     (* [wait_for(q.get(), 0.5)] completes *)
| LAircraft (i : nat) (now : string)  (* task [i] runs to its next await *)
| LSignal.                    (* SIGINT or SIGTERM is delivered *)

Definition QUEUE_MAXSIZE : nat := 1000.

(** [asyncio.Queue.full]. *)
Definition full (maxsize : nat) (q : list Message) : bool :=
  Nat.ltb 0 maxsize && Nat.leb maxsize (length q).

Definition is_done (t : Task) : bool :=
  match t with AcDone => true | _ => false end.

(** The event loop runs the tasks while [main] is neither finished nor
    left by an exception or an exit. *)
Definition loop_alive (pc : MainPc) : bool :=
  match pc with
  | MWindow | MRunTest | MRunGet | MGather => true
  | _ => false
  end.

Section EventLoop.

Variable cfg : Config.
Variable Random_seeded : Z -> Py.Random.
Variable can_open : string -> bool.

(** Before [main] starts there is neither queue nor task nor tower; the
    tower of the initial world is a placeholder. *)
Definition initial : World :=
  mkWorld false [] [] (ControlTower_init None) [] MStart [] [].

Definition set_task (i : nat) (t : Task) (w : World) : World :=
  mkWorld (running w) (queue w) (<[i:=t]> (tasks w)) (tower w) (console w)
    (mpc w) (pushed w) (popped w).

Definition put (msg : Message) (w : World) : World :=
  mkWorld (running w) (queue w ++ [msg]) (tasks w) (tower w) (console w)
    (mpc w) (pushed w ++ [msg]) (popped w).

Definition set_main (r : bool) (t : ControlTower) (out : list Line)
    (pc : MainPc) (w : World) : World :=
  mkWorld r (queue w) (tasks w) t (console w ++ out) pc (pushed w) (popped w).

(** Lines 157-189 of [main], up to the sleep: the event is set, the
    queue is created (its histories start empty), the tasks are created,
    then the tower is constructed and entered. *)
Definition main_start (w : World) : World :=
  let ts := map (fun i => AcCreated (i + 1)) (seq 0 (NUM_AIRCRAFT cfg)) in
  let w := mkWorld true [] ts (tower w) (console w) (mpc w) [] [] in
  match ControlTower_aenter can_open (ControlTower_init (Some (LOG_CSV cfg))) with
  | inr t =>
      set_main true t [InfoRunning (RUNTIME_SECONDS cfg) (NUM_AIRCRAFT cfg)]
        MWindow w
  | inl e => set_main true (tower w) [] (MRaised e) w
  end.

(** One step of the task of index [i] (aircraft id [i + 1]); [now] is
    what [now_iso()] returns if the step builds a message.  A [put] on a
    full queue cannot be taken. *)
Definition aircraft_task (i : nat) (now : string) (w : World) : option World :=
  t ← tasks w !! i;
  match t with
  | AcCreated id =>
      Some (set_task i (AcLoop (aircraft_start Random_seeded id)) w)
  | AcLoop a =>
      if running w then
        let (a', msg) := aircraft_tick now a in
        Some (set_task i (AcPut a' msg) w)
      else Some (set_task i (AcBye (bye_message (ac_id a) now)) w)
  | AcPut a msg =>
      if full QUEUE_MAXSIZE (queue w) then None
      else
        let (d, a') := aircraft_delay cfg a in
        Some (set_task i (AcSleep a' d) (put msg w))
  | AcSleep a _ => Some (set_task i (AcLoop a) w)
  | AcBye msg =>
      if full QUEUE_MAXSIZE (queue w) then None
      else Some (set_task i AcDone (put msg w))
  | AcDone => None
  end.

(** One step of [main].  The end of the sleep clears [stop_event] and
    enters [tower.run] (lines 189-193); the test of the loop of [run]
    (line 127) either goes to the wait on the queue or leaves the loop,
    prints the tallies and leaves the [async with] block (line 152, then
    [__aexit__]); [gather] returns when every task has. *)
Definition main (w : World) : option World :=
  match mpc w with
  | MStart => Some (main_start w)
  | MWindow => Some (set_main false (tower w) [] MRunTest w)
  | MRunTest =>
      if ControlTower_run_test (running w) (NUM_AIRCRAFT cfg) (tower w)
      then Some (set_main (running w) (tower w) [] MRunGet w)
      else
        let t := tower w in
        Some (set_main (running w) (ControlTower_aexit t)
                [TowerFinal (processed t) (rejected t) (byes t)] MGather w)
  | MGather =>
      if forallb is_done (tasks w)
      then Some (set_main (running w) (tower w) [InfoComplete (LOG_CSV cfg)]
                   MDone w)
      else None
  | _ => None
  end.

(** Lines 128-150: the wait on the queue ends, by a timeout ([continue])
    or with the oldest message, on which the body of the loop runs.  An
    exception of the body leaves [run] and the [async with] block. *)
Definition ControlTower_run_get (timed_out : bool) (w : World) : option World :=
  match mpc w with
  | MRunGet =>
      if timed_out then Some (set_main (running w) (tower w) [] MRunTest w)
      else
        match queue w with
        | [] => None
        | msg :: rest =>
            let '(t, out, e) :=
              ControlTower_run_body cfg (NUM_AIRCRAFT cfg) msg (tower w) in
            let w := mkWorld (running w) rest (tasks w) (tower w) (console w)
                       (mpc w) (pushed w) (popped w ++ [msg]) in
            match e with
            | None => Some (set_main (running w) t out MRunTest w)
            | Some e =>
                Some (set_main (running w) (ControlTower_aexit t) out
                        (MRaised e) w)
            end
        end
  | _ => None
  end.

(** [handle_sig].  The run of the model ends at [sys.exit(1)]: the
    teardown that [asyncio.run] performs afterwards is not part of it. *)
Definition handle_sig (w : World) : option World :=
  if loop_alive (mpc w) then
    if running w
    then Some (set_main false (tower w) [InfoStopRequested] (mpc w) w)
    else Some (set_main false (tower w) [] (MExit 1) w)
  else None.

Definition step (l : Label) (w : World) : option World :=
  match l with
  | LMain => main w
  | LGet timed_out => ControlTower_run_get timed_out w
  | LAircraft i now =>
      if loop_alive (mpc w) then aircraft_task i now w else None
  | LSignal => handle_sig w
  end.

Fixpoint exec (ls : list Label) (w : World) : option World :=
  match ls with
  | [] => Some w
  | l :: ls => w' ← step l w; exec ls w'
  end.

Definition reachable (w : World) : Prop :=
  exists ls, exec ls initial = Some w.

End EventLoop.

(** * Vocabulary of the properties *)

Section Bounds.
Local Open Scope Q_scope.

Definition in_bounds (m : Message) : Prop :=
  -90 <= latitude m <= 90 /\
  -180 <= longitude m <= 180 /\
  0 <= altitude_ft m <= 60000 /\
  0 <= speed_kt m <= 700 /\
  0 <= heading_deg m <= 360.

Definition out_of_bounds (m : Message) : Prop :=
  latitude m < -90 \/ 90 < latitude m \/
  longitude m < -180 \/ 180 < longitude m \/
  altitude_ft m < 0 \/ 60000 < altitude_ft m \/
  speed_kt m < 0 \/ 700 < speed_kt m \/
  heading_deg m < 0 \/ 360 < heading_deg m.

(** The messages obtained from [m] by moving one field onto one of its
    two bounds. *)
Definition on_a_bound (m : Message) : list Message :=
  let '(mkMessage i la lo al sp hd st t) := m in
  [mkMessage i (-90) lo al sp hd st t; mkMessage i 90 lo al sp hd st t;
   mkMessage i la (-180) al sp hd st t; mkMessage i la 180 al sp hd st t;
   mkMessage i la lo 0 sp hd st t; mkMessage i la lo 60000 sp hd st t;
   mkMessage i la lo al 0 hd st t; mkMessage i la lo al 700 hd st t;
   mkMessage i la lo al sp 0 st t; mkMessage i la lo al sp 360 st t].

Definition same_numbers (m1 m2 : Message) : Prop :=
  latitude m1 == latitude m2 /\
  longitude m1 == longitude m2 /\
  altitude_ft m1 == altitude_ft m2 /\
  speed_kt m1 == speed_kt m2 /\
  heading_deg m1 == heading_deg m2.

End Bounds.

Section TickVocabulary.
Local Open Scope Q_scope.

(** Every value of [random()] lies in [0, 1). *)
Definition unit_stream (g : Py.Random) : Prop :=
  forall n, 0 <= Py.stream g n < 1.

(** [d] is a perturbation of at most [c] in absolute value. *)
Definition within (c d : Q) : Prop := - c <= d <= c.

(** The state [a'] comes from [a] by the random walk of one pass of the
    loop, with perturbations bounded by 0.05 degree for both coordinates,
    400 ft, 10 kt and 5 degrees ([0.05] being the binary64 literal). *)
Definition random_walk_step (a a' : Aircraft) : Prop :=
  exists d_lat d_lon d_alt d_spd d_hdg,
    within (lit (5 # 100)) d_lat /\ within (lit (5 # 100)) d_lon /\
    within 400 d_alt /\ within 10 d_spd /\ within 5 d_hdg /\
    lat a' = fadd (lat a) d_lat /\
    lon a' = fadd (lon a) d_lon /\
    alt a' = Py.max 0 (Py.min (fadd (alt a) d_alt) 60000) /\
    spd a' = Py.max 0 (Py.min (fadd (spd a) d_spd) 700) /\
    hdg a' = Py.float_rem (fadd (hdg a) d_hdg) 360.

Definition carries (msg : Message) (a : Aircraft) : Prop :=
  aircraft_id msg = ac_id a /\
  latitude msg = lat a /\ longitude msg = lon a /\
  altitude_ft msg = alt a /\ speed_kt msg = spd a /\
  heading_deg msg = hdg a /\
  (status msg = "OK" \/ status msg = "WARN").

(** A generator whose fifth value is 2^-53 and whose tenth value is
    (2^52 - 37) / 2^53: the first is the draw of the starting heading, the
    second the draw of the heading perturbation of the first tick. *)
Definition edge_rng (seed : Z) : Py.Random :=
  Py.mkRandom
    (fun n =>
       if Nat.eqb n 4 then 1 # 2 ^ 53
       else if Nat.eqb n 9 then (2 ^ 52 - 37) # 2 ^ 53
       else 1 # 2)
    0.

End TickVocabulary.

Section RunVocabulary.

Definition is_bye (m : Message) : bool := String.eqb (status m) "BYE".
Definition is_data (m : Message) : bool := negb (is_bye m).

Definition byes_in (l : list Message) : nat := length (List.filter is_bye l).
Definition data_in (l : list Message) : nat := length (List.filter is_data l).

(** The messages of [l] that carry the aircraft id [id], in order. *)
Definition sent_by (id : nat) (l : list Message) : list Message :=
  List.filter (fun m => Nat.eqb (aircraft_id m) id) l.

Definition data_only (l : list Message) : Prop :=
  Forall (fun m => is_data m = true) l.

Definition zeroed (m : Message) : Prop :=
  latitude m = 0%Q /\ longitude m = 0%Q /\ altitude_ft m = 0%Q /\
  speed_kt m = 0%Q /\ heading_deg m = 0%Q.

(** What the task with aircraft id [id] has put on the queue, given where
    it stands: data messages only while it runs, and data messages
    followed by one zeroed BYE message once it has returned. *)
Definition emitted_so_far (id : nat) (t : Task) (hist : list Message) : Prop :=
  match t with
  | AcDone =>
      exists (l : list Message) (bye : Message),
        sent_by id hist = (l ++ [bye])%list /\ data_only l /\
        is_bye bye = true /\ zeroed bye
  | _ => data_only (sent_by id hist)
  end.

(** The loop of [run] has been left through its test. *)
Definition loop_exited (w : World) : Prop :=
  mpc w = MGather \/ mpc w = MDone.

(** The loop of [run] is being executed. *)
Definition in_loop (w : World) : Prop :=
  mpc w = MRunTest \/ mpc w = MRunGet.

Definition same_tallies (t t' : ControlTower) : Prop :=
  processed t' = processed t /\ rejected t' = rejected t /\
  csv_file t' = csv_file t /\ writer t' = writer t /\
  csv_path t' = csv_path t.

End RunVocabulary.

(** * The invariant of a run *)

(** What the local state of a task and its pending message must be for
    the task of aircraft id [id]. *)
Definition task_wf (id : nat) (t : Task) : Prop :=
  match t with
  | AcCreated id' => id' = id
  | AcLoop a | AcSleep a _ => ac_id a = id
  | AcPut a m => ac_id a = id /\ aircraft_id m = id /\ is_data m = true
  | AcBye m => aircraft_id m = id /\ is_bye m = true /\ zeroed m
  | AcDone => True
  end.

Section Invariant.

Variable cfg : Config.
Variable can_open : string -> bool.

Record Inv (w : World) : Prop := mkInv {
  (* the queue is first in, first out *)
  inv_hist : pushed w = popped w ++ queue w;
  (* the tower has counted what it has taken *)
  inv_tally : processed (tower w) + rejected (tower w) = data_in (popped w);
  inv_byes : byes (tower w) = byes_in (popped w);
  (* one task per aircraft, numbered from 1 *)
  inv_len : length (tasks w) =
            match mpc w with MStart => 0 | _ => NUM_AIRCRAFT cfg end;
  inv_task : forall i t, tasks w !! i = Some t ->
               task_wf (S i) t /\ emitted_so_far (S i) t (pushed w);
  inv_ids : Forall (fun m => 1 <= aircraft_id m <= NUM_AIRCRAFT cfg) (pushed w);
  (* one BYE message per returned task *)
  inv_done : byes_in (pushed w) = length (List.filter is_done (tasks w));
  (* [stop_event] is cleared before [run] is called and never set again *)
  inv_stop : in_loop w \/ loop_exited w -> running w = false;
  inv_window : mpc w = MStart \/ mpc w = MWindow -> popped w = [];
  inv_exit : loop_exited w -> NUM_AIRCRAFT cfg <= byes (tower w);
  inv_open : mpc w = MWindow ->
             ControlTower_aenter can_open (ControlTower_init (Some (LOG_CSV cfg)))
             = inr (tower w)
}.

End Invariant.

Arguments inv_hist {cfg can_open} w _.
Arguments inv_tally {cfg can_open} w _.
Arguments inv_byes {cfg can_open} w _.
Arguments inv_len {cfg can_open} w _.
Arguments inv_task {cfg can_open} w _.
Arguments inv_ids {cfg can_open} w _.
Arguments inv_done {cfg can_open} w _.
Arguments inv_stop {cfg can_open} w _.
Arguments inv_window {cfg can_open} w _.
Arguments inv_exit {cfg can_open} w _.
Arguments inv_open {cfg can_open} w _.

(** * Sample runs *)

Definition cfg2 : Config := mkConfig 2 12 120 500 "atm_log.csv" 50.

Definition half_rng (seed : Z) : Py.Random := Py.mkRandom (fun _ => 1 # 2) 0.

Definition always_open (path : string) : bool := true.

(** The world after the schedule [ls], or the initial one when the
    schedule asks for a step that cannot be taken. *)
Definition run_of (cfg : Config) (seeded : Z -> Py.Random)
    (can_open : string -> bool) (ls : list Label) : World :=
  default initial (exec cfg seeded can_open ls initial).

(** Two aircraft: the first sends one message during the window, the
    second none; the tower then drains the queue, with one timeout. *)
Definition full_run : list Label :=
  [LMain; LAircraft 0 "t0"; LAircraft 0 "t1"; LAircraft 0 "t2";
   LAircraft 1 "t3"; LAircraft 0 "t4"; LMain; LMain; LGet false;
   LAircraft 0 "t5"; LAircraft 0 "t6"; LAircraft 1 "t7"; LAircraft 1 "t8";
   LMain; LGet false; LMain; LGet true; LMain; LGet false; LMain; LMain].

(** The same run, stopped when the tower is about to test its loop
    condition for the last time, and when it waits on the queue. *)
Definition run_to_test : list Label := take 19 full_run.
Definition run_to_get : list Label := take 16 full_run.

(** A BYE message that [validate] rejects, at the head of the queue of a
    tower that waits on it. *)
Definition odd_bye : Message := mkMessage 7 91 0 0 0 0 "BYE" "t".
Definition world_with_odd_bye : World :=
  mkWorld false [odd_bye] [] (mkControlTower None 3 1 0 false None) []
    MRunGet [] [].


(** * Primitive floats, to test the rounding model *)

(** The rational that a finite primitive float denotes. *)
Definition of_float (f : float) : Q :=
  match Prim2SF f with
  | S754_finite s m e =>
      ((if s then -1 else 1) * inject_Z (Zpos m) * pow2 e)%Q
  | _ => 0%Q
  end.

Definition finite (f : float) : bool :=
  match Prim2SF f with
  | S754_finite _ _ _ | S754_zero _ => true
  | _ => false
  end.

(** [op_q] computes on the model what [op_f] computes on the floats
    [x] and [y], when that is a finite float. *)
Definition agree2 (op_f : float -> float -> float) (op_q : Q -> Q -> Q)
    (x y : float) : bool :=
  if finite (op_f x y)
  then Qeq_bool (of_float (op_f x y)) (op_q (of_float x) (of_float y))
  else true.

(** 2^-53, 0.05, 0.02, 1 - 2^-53, some integers, 60000, 2^53 and its
    successor, 1.3125 * 2^-50 and pi. *)
Definition normal_floats : list float :=
  [0x1p-53; 0x1.999999999999ap-5; 0x1.47ae147ae147bp-6;
   0x1.fffffffffffffp-1; 1; 3; 10; 0x1.68p+8;
   0x1.d4cp+15; 0x1p+53; 0x1.0000000000001p+53;
   0x1.5p-50; 0x1.921fb54442d18p+1]%float.

(** Two subnormal numbers and the largest one below 2^-1022. *)
Definition tiny_floats : list float :=
  [0x1p-1074; 0x1.8p-1073; 0x1.fffffffffffffp-1023]%float.

Definition agree_on (l1 l2 : list float) (op_f : float -> float -> float)
    (op_q : Q -> Q -> Q) : bool :=
  forallb (fun x =>
    forallb (fun y =>
      agree2 op_f op_q x y && agree2 op_f op_q (- x)%float y)
      l2)
    l1.

Definition agree_on_samples (op_f : float -> float -> float)
    (op_q : Q -> Q -> Q) : bool :=
  agree_on normal_floats normal_floats op_f op_q &&
  agree_on tiny_floats [0x1p-1074; 0x1.8p-1; 3]%float op_f op_q.

(** The value of [random()] behind the heading perturbation of
    [edge_rng]. *)
Definition r_edge : float := (4503599627370459 * 0x1p-53)%float.

(** * Vocabulary of the further properties *)

Section WalkVocabulary.
Local Open Scope Q_scope.

(** The messages of the first passes of the loop of the task, one per
    timestamp of [nows], while [running] stays set: a tick, the [put],
    then the draw of the delay. *)
Fixpoint aircraft_messages (cfg : Config) (nows : list string) (a : Aircraft)
  : list Message :=
  match nows with
  | [] => []
  | now :: rest =>
      let (a', msg) := aircraft_tick now a in
      msg :: aircraft_messages cfg rest (snd (aircraft_delay cfg a'))
  end.

(** [lo] and [hi] stay within [-lim, lim] when [c] is subtracted from
    the first and added to the second, [n] times, in binary64. *)
Fixpoint drift_within (c lim : Q) (n : nat) (lo hi : Q) : bool :=
  Qle_bool (- lim) lo && Qle_bool hi lim &&
  match n with
  | O => true
  | S n => drift_within c lim n (fadd lo (- c)) (fadd hi c)
  end.

(** The perturbation of the heading that the next tick of [a] draws. *)
Definition heading_draw (a : Aircraft) : Q :=
  fadd (-5) (fmul (fsub 5 (-5))
                (Py.stream (rng a) (4 + Py.consumed (rng a)))).

(** A generator that always returns the largest value of [random()]. *)
Definition top_rng (seed : Z) : Py.Random :=
  Py.mkRandom (fun _ => 1 - (1 # 2 ^ 53)) 0.

Definition start_ranges (a : Aircraft) : Prop :=
  -60 <= lat a <= 60 /\ -120 <= lon a <= 120 /\
  10000 <= alt a <= 39000 /\ 250 <= spd a <= 480 /\ 0 <= hdg a <= 360.

End WalkVocabulary.

Section AccountingVocabulary.

Definition accepted (m : Message) : bool := is_data m && validate m.
Definition refused (m : Message) : bool := is_data m && negb (validate m).

Definition accepted_in (l : list Message) : nat := length (List.filter accepted l).
Definition refused_in (l : list Message) : nat := length (List.filter refused l).

(** The rows that [run] writes for the messages of [l]: one per data
    message, in order, with its verdict. *)
Definition log_rows (l : list Message) : list CsvRow :=
  map (fun m => CsvData m (if validate m then 1 else 0)) (List.filter is_data l).

Definition is_bye_line (x : Line) : bool :=
  match x with TowerBye _ _ _ _ => true | _ => false end.
Definition is_rejected_line (x : Line) : bool :=
  match x with TowerRejected _ _ _ _ _ => true | _ => false end.
Definition is_progress_line (x : Line) : bool :=
  match x with TowerProgress _ _ => true | _ => false end.

Definition lines (f : Line -> bool) (out : list Line) : nat :=
  length (List.filter f out).

(** The log file gets opened: the path is not empty and [open] succeeds. *)
Definition log_opens (cfg : Config) (can_open : string -> bool) : bool :=
  truthy (Some (LOG_CSV cfg)) && can_open (LOG_CSV cfg).

(** [main] has left the [async with] block. *)
Definition block_left (pc : MainPc) : bool :=
  match pc with
  | MGather | MDone | MRaised _ => true
  | _ => false
  end.

(** The messages whose row has been written, if they are data: all those
    taken from the queue, but the last one when the body of the loop was
    left by ZeroDivisionError. *)
Definition written (w : World) : list Message :=
  match mpc w with
  | MRaised ZeroDivisionError => removelast (popped w)
  | _ => popped w
  end.

Definition log_ok (cfg : Config) (can_open : string -> bool) (w : World) : Prop :=
  match mpc w with
  | MStart | MRaised OSError => True
  | pc =>
      writer (tower w) = log_opens cfg can_open /\
      match csv_file (tower w) with
      | None => log_opens cfg can_open = false
      | Some f =>
          log_opens cfg can_open = true /\
          rows f = CsvHeader fieldnames :: log_rows (written w) /\
          match pc with
          | MExit _ => True
          | _ => closed f = block_left pc
          end
      end
  end.

(** Altitude, speed and heading are where [validate] wants them. *)
Definition flight_ok (m : Message) : Prop :=
  (0 <= altitude_ft m <= 60000 /\ 0 <= speed_kt m <= 700 /\
   0 <= heading_deg m <= 360)%Q.

Definition position_ok (m : Message) : Prop :=
  (-90 <= latitude m <= 90 /\ -180 <= longitude m <= 180)%Q.

End AccountingVocabulary.

(** * The accounts of a run *)

Section Accounting.

Variable cfg : Config.
Variable can_open : string -> bool.

Record Inv2 (w : World) : Prop := mkInv2 {
  acc_queue : length (queue w) <= QUEUE_MAXSIZE;
  acc_accepted : processed (tower w) = accepted_in (popped w);
  acc_refused : rejected (tower w) = refused_in (popped w);
  acc_bye_lines : lines is_bye_line (console w) = byes (tower w);
  acc_rejected_lines : lines is_rejected_line (console w) = rejected (tower w);
  acc_progress_lines :
    lines is_progress_line (console w)
    = processed (tower w) / PRINT_PROGRESS_EVERY cfg;
  acc_log : log_ok cfg can_open w;
  acc_flight : Forall flight_ok (pushed w);
  acc_pending : forall i a m, tasks w !! i = Some (AcPut a m) -> flight_ok m
}.

End Accounting.

Arguments acc_queue {cfg can_open} w _.
Arguments acc_accepted {cfg can_open} w _.
Arguments acc_refused {cfg can_open} w _.
Arguments acc_bye_lines {cfg can_open} w _.
Arguments acc_rejected_lines {cfg can_open} w _.
Arguments acc_progress_lines {cfg can_open} w _.
Arguments acc_log {cfg can_open} w _.
Arguments acc_flight {cfg can_open} w _.
Arguments acc_pending {cfg can_open} w _.

Section CompletionVocabulary.






Definition banner (cfg : Config) : Line :=
  InfoRunning (RUNTIME_SECONDS cfg) (NUM_AIRCRAFT cfg).

(** What the console holds, given where [main] stands. *)
Definition console_ok (cfg : Config) (w : World) : Prop :=
  match mpc w with
  | MStart | MRaised OSError => console w = []
  | MGather =>
      exists out,
        console w = banner cfg :: out ++
          [TowerFinal (processed (tower w)) (rejected (tower w)) (byes (tower w))]
  | MDone =>
      exists out,
        console w = banner cfg :: out ++
          [TowerFinal (processed (tower w)) (rejected (tower w)) (byes (tower w));
           InfoComplete (LOG_CSV cfg)]
  | _ => exists out, console w = banner cfg :: out
  end.


End CompletionVocabulary.

Section TraceVocabulary.

(** The local state of the task after the passes of the loop that
    [aircraft_messages] describes. *)
Fixpoint aircraft_walk (cfg : Config) (nows : list string) (a : Aircraft)
  : Aircraft :=
  match nows with
  | [] => a
  | now :: rest =>
      aircraft_walk cfg rest (snd (aircraft_delay cfg (fst (aircraft_tick now a))))
  end.

(** The data messages of [hist] that carry the aircraft id [id]. *)
Definition data_sent (id : nat) (hist : list Message) : list Message :=
  List.filter is_data (sent_by id hist).

(** The data messages that the task of aircraft id [id] has put are
    those of its seeded walk, and its local state is where that walk
    stands. *)
Definition task_trace (cfg : Config) (seeded : Z -> Py.Random) (id : nat)
    (t : Task) (hist : list Message) : Prop :=
  let a0 := aircraft_start seeded id in
  match t with
  | AcCreated _ => data_sent id hist = []
  | AcLoop a | AcSleep a _ =>
      exists nows,
        data_sent id hist = aircraft_messages cfg nows a0 /\
        a = aircraft_walk cfg nows a0
  | AcPut a m =>
      exists nows now,
        data_sent id hist = aircraft_messages cfg nows a0 /\
        (a, m) = aircraft_tick now (aircraft_walk cfg nows a0)
  | AcBye _ | AcDone =>
      exists nows, data_sent id hist = aircraft_messages cfg nows a0
  end.

Definition Trace (cfg : Config) (seeded : Z -> Py.Random) (w : World) : Prop :=
  forall i t, tasks w !! i = Some t -> task_trace cfg seeded (S i) t (pushed w).

End TraceVocabulary.

(** * Further sample runs *)

(** No aircraft at all, and a progress interval of 0. *)
Definition cfg_no_aircraft : Config := mkConfig 0 12 120 500 "atm_log.csv" 50.

(** [full_run] up to the end of the window, and what follows. *)
Definition run_to_stop : list Label := take 7 full_run.
Definition run_after_stop : list Label := drop 7 full_run.


(** The first message put and the second message taken in [full_run]. *)
Definition first_put : Message :=
  List.hd odd_bye (pushed (run_of cfg2 half_rng always_open full_run)).
Definition second_taken : Message :=
  nth 1 (popped (run_of cfg2 half_rng always_open full_run)) odd_bye.

(** * Facts on binary64 rounding *)

Module Binary64Facts.
Local Open Scope Q_scope.

(** ** Powers of two *)

Lemma pow2_pos e : 0 < pow2 e.
Proof. apply Qpower_0_lt. reflexivity. Qed.

Lemma pow2_add a b : pow2 (a + b) == pow2 a * pow2 b.
Proof. apply Qpower_plus. discriminate. Qed.

Lemma pow2_le a b : (a <= b)%Z -> pow2 a <= pow2 b.
Proof. intros H. apply Qpower_le_compat_l; [exact H | discriminate]. Qed.

Lemma pow2_lt_inv a b : pow2 a < pow2 b -> (a < b)%Z.
Proof. intros H. apply (Qpower_lt_compat_l_inv 2); [exact H | reflexivity]. Qed.

Lemma pow2_inject n : (0 <= n)%Z -> inject_Z (2 ^ n) == pow2 n.
Proof. intros H. unfold pow2. now rewrite Zpower_Qpower. Qed.

Lemma pow2_succ a : pow2 (a + 1) == 2 * pow2 a.
Proof. rewrite pow2_add. change (pow2 1) with 2. ring. Qed.

(** ** The binade of a positive rational *)

Lemma ilog2_spec q : 0 < q -> pow2 (ilog2 q) <= q /\ q < pow2 (ilog2 q + 1).
Proof.
  intros Hq. unfold ilog2.
  destruct q as [n d]. cbn [Qnum Qden].
  assert (Hn : (0 < n)%Z).
  { unfold Qlt in Hq. cbn in Hq. lia. }
  set (a := Z.log2 n). set (b := Z.log2 (Z.pos d)).
  destruct (Z.log2_spec n Hn) as [Ha1 Ha2].
  destruct (Z.log2_spec (Z.pos d) (Pos2Z.is_pos d)) as [Hb1 Hb2].
  fold a in Ha1, Ha2. fold b in Hb1, Hb2.
  assert (Ha0 : (0 <= a)%Z) by apply Z.log2_nonneg.
  assert (Hb0 : (0 <= b)%Z) by apply Z.log2_nonneg.
  assert (Hq' : n # d == inject_Z n / inject_Z (Z.pos d)) by apply Qmake_Qdiv.
  assert (Hd : 0 < inject_Z (Z.pos d)).
  { unfold Qlt. cbn. lia. }
  assert (Hup : n # d < pow2 (a - b + 1)).
  { rewrite Hq'. apply Qlt_shift_div_r; [exact Hd|].
    apply Qlt_le_trans with (inject_Z (2 ^ (a + 1))).
    - rewrite <- Zlt_Qlt. lia.
    - rewrite (pow2_inject (a + 1)) by lia.
      replace (a + 1)%Z with ((a - b + 1) + b)%Z at 1 by ring.
      rewrite pow2_add. apply Qmult_le_l; [apply pow2_pos|].
      rewrite <- (pow2_inject b) by lia. rewrite <- Zle_Qle. lia. }
  assert (Hlo : pow2 (a - b - 1) <= n # d).
  { rewrite Hq'. apply Qle_shift_div_l; [exact Hd|].
    apply Qle_trans with (inject_Z (2 ^ a)).
    - rewrite (pow2_inject a) by lia.
      replace a with ((a - b - 1) + (b + 1))%Z at 2 by ring.
      rewrite pow2_add. apply Qmult_le_l; [apply pow2_pos|].
      rewrite <- (pow2_inject (b + 1)) by lia. rewrite <- Zle_Qle. lia.
    - rewrite <- Zle_Qle. lia. }
  destruct (Qle_bool (pow2 (a - b)) (n # d)) eqn:E.
  - apply Qle_bool_iff in E. split; assumption.
  - split; [exact Hlo|].
    replace (a - b - 1 + 1)%Z with (a - b)%Z by ring.
    apply Qnot_le_lt. intros H. apply Qle_bool_iff in H. congruence.
Qed.

Lemma ilog2_mono x y : 0 < x -> x <= y -> (ilog2 x <= ilog2 y)%Z.
Proof.
  intros Hx Hxy.
  assert (Hy : 0 < y) by (eapply Qlt_le_trans; eassumption).
  destruct (ilog2_spec x Hx) as [Hx1 _].
  destruct (ilog2_spec y Hy) as [_ Hy2].
  assert (H : pow2 (ilog2 x) < pow2 (ilog2 y + 1)).
  { eapply Qle_lt_trans; [exact Hx1|]. eapply Qle_lt_trans; eassumption. }
  apply pow2_lt_inv in H. lia.
Qed.

Lemma fexp_mono x y : 0 < x -> x <= y -> (fexp x <= fexp y)%Z.
Proof. intros Hx Hxy. unfold fexp. pose proof (ilog2_mono x y Hx Hxy). lia. Qed.

(** ** Rounding to the nearest integer, ties to even *)

Lemma round_half_even_bounds q :
  (Qfloor q <= round_half_even q <= Qfloor q + 1)%Z.
Proof.
  unfold round_half_even.
  destruct (Qcompare _ _); [destruct (Z.even _)| |]; lia.
Qed.

Lemma round_half_even_mono x y :
  x <= y -> (round_half_even x <= round_half_even y)%Z.
Proof.
  intros Hxy.
  pose proof (Qfloor_resp_le x y Hxy) as Hf.
  destruct (Z.eq_dec (Qfloor x) (Qfloor y)) as [E|N].
  - unfold round_half_even. rewrite E.
    destruct (Qcompare_spec (x - inject_Z (Qfloor y)) (1 # 2)) as [H1|H1|H1];
    destruct (Qcompare_spec (y - inject_Z (Qfloor y)) (1 # 2)) as [H2|H2|H2];
    try destruct (Z.even (Qfloor y)); try lia; exfalso; lra.
  - pose proof (round_half_even_bounds x). pose proof (round_half_even_bounds y).
    lia.
Qed.

Lemma round_half_even_Z z : round_half_even (inject_Z z) = z.
Proof.
  unfold round_half_even. rewrite Qfloor_Z.
  destruct (Qcompare_spec (inject_Z z - inject_Z z) (1 # 2)) as [H|H|H];
    [exfalso; lra | reflexivity | exfalso; lra].
Qed.

Lemma round_half_even_ge z q : inject_Z z <= q -> (z <= round_half_even q)%Z.
Proof.
  intros H. rewrite <- (round_half_even_Z z). now apply round_half_even_mono.
Qed.

Lemma round_half_even_le z q : q <= inject_Z z -> (round_half_even q <= z)%Z.
Proof.
  intros H. rewrite <- (round_half_even_Z z). now apply round_half_even_mono.
Qed.

(** ** Rounding to binary64 is monotone *)

Lemma rnd_pos_nonneg q : 0 < q -> 0 <= rnd_pos q.
Proof.
  intros Hq. unfold rnd_pos.
  apply Qmult_le_0_compat; [|apply Qlt_le_weak, pow2_pos].
  change 0 with (inject_Z 0). rewrite <- Zle_Qle.
  apply round_half_even_ge. change (inject_Z 0) with 0.
  apply Qle_shift_div_l; [apply pow2_pos|]. lra.
Qed.

Lemma rnd_pos_mono x y : 0 < x -> x <= y -> rnd_pos x <= rnd_pos y.
Proof.
  intros Hx Hxy.
  assert (Hy : 0 < y) by (eapply Qlt_le_trans; eassumption).
  pose proof (fexp_mono x y Hx Hxy) as He.
  unfold rnd_pos.
  destruct (Z.eq_dec (fexp x) (fexp y)) as [E|N].
  - rewrite E. apply Qmult_le_compat_r; [|apply Qlt_le_weak, pow2_pos].
    rewrite <- Zle_Qle. apply round_half_even_mono.
    apply Qmult_le_compat_r; [exact Hxy|].
    apply Qlt_le_weak, Qinv_lt_0_compat, pow2_pos.
  - assert (Hlt : (fexp x < fexp y)%Z) by lia.
    destruct (ilog2_spec x Hx) as [_ Hx2].
    destruct (ilog2_spec y Hy) as [Hy1 _].
    assert (Hey : fexp y = (ilog2 y - 52)%Z).
    { unfold fexp, prec in *. lia. }
    assert (Hex : (ilog2 x - 52 <= fexp x)%Z).
    { unfold fexp, prec. lia. }
    apply Qle_trans with (pow2 (fexp x + 53)).
    + rewrite Z.add_comm, pow2_add.
      apply Qmult_le_compat_r; [|apply Qlt_le_weak, pow2_pos].
      rewrite <- (pow2_inject 53) by lia. rewrite <- Zle_Qle.
      apply round_half_even_le. rewrite (pow2_inject 53) by lia.
      apply Qle_shift_div_r; [apply pow2_pos|].
      rewrite <- pow2_add. apply Qlt_le_weak.
      eapply Qlt_le_trans; [exact Hx2|]. apply pow2_le. lia.
    + apply Qle_trans with (pow2 (52 + fexp y)); [apply pow2_le; lia|].
      rewrite pow2_add.
      apply Qmult_le_compat_r; [|apply Qlt_le_weak, pow2_pos].
      rewrite <- (pow2_inject 52) by lia. rewrite <- Zle_Qle.
      apply round_half_even_ge. rewrite (pow2_inject 52) by lia.
      apply Qle_shift_div_l; [apply pow2_pos|].
      rewrite <- pow2_add. rewrite Hey.
      replace (52 + (ilog2 y - 52))%Z with (ilog2 y) by ring. exact Hy1.
Qed.

Lemma rnd_mono x y : x <= y -> rnd x <= rnd y.
Proof.
  intros Hxy. unfold rnd.
  destruct (Qcompare_spec x 0) as [Hx|Hx|Hx];
  destruct (Qcompare_spec y 0) as [Hy|Hy|Hy]; try lra.
  - apply rnd_pos_nonneg; exact Hy.
  - assert (H := rnd_pos_nonneg (- x)). lra.
  - assert (H := rnd_pos_mono (- y) (- x)). lra.
  - assert (H := rnd_pos_nonneg (- x)).
    assert (H' := rnd_pos_nonneg y). lra.
  - apply rnd_pos_mono; assumption.
Qed.

#[export] Instance rnd_Proper : Proper (Qeq ==> Qeq) rnd.
Proof.
  intros x y E. apply Qle_antisym; apply rnd_mono; rewrite E; apply Qle_refl.
Qed.

End Binary64Facts.

(** * The validator *)

Section Validate.
Local Open Scope Q_scope.

Lemma between_iff lo x hi : between lo x hi = true <-> lo <= x <= hi.
Proof. unfold between. rewrite andb_true_iff, !Qle_bool_iff. tauto. Qed.

Lemma between_false lo x hi : x < lo \/ hi < x -> between lo x hi = false.
Proof.
  intros H. apply not_true_is_false. rewrite between_iff. lra.
Qed.

Lemma validate_conj m :
  validate m =
    between (-90) (latitude m) 90 && between (-180) (longitude m) 180 &&
    between 0 (altitude_ft m) 60000 && between 0 (speed_kt m) 700 &&
    between 0 (heading_deg m) 360.
Proof.
  unfold validate.
  destruct (between (-90) _ 90), (between (-180) _ 180),
    (between 0 _ 60000), (between 0 _ 700), (between 0 _ 360); reflexivity.
Qed.

Lemma validate_in_bounds m : validate m = true <-> in_bounds m.
Proof.
  rewrite validate_conj, !andb_true_iff, !between_iff. unfold in_bounds. tauto.
Qed.

Lemma validate_out_of_bounds m : out_of_bounds m -> validate m = false.
Proof.
  intros H. apply not_true_is_false. rewrite validate_in_bounds.
  unfold in_bounds, out_of_bounds in *. lra.
Qed.

(** C3.  [validate] accepts a message exactly when latitude is in
    [-90, 90], longitude in [-180, 180], altitude in [0, 60000], speed in
    [0, 700] and heading in [0, 360]; a message with one field strictly
    outside its range is rejected; and moving any one field of an accepted
    message onto either of its bounds gives an accepted message, so all
    bounds are inclusive. *)
Theorem validate_accepts_exactly_the_bounds (m : Message) :
  (validate m = true <-> in_bounds m) /\
  (out_of_bounds m -> validate m = false) /\
  (validate m = true -> Forall (fun m' => validate m' = true) (on_a_bound m)).
Proof.
  split; [apply validate_in_bounds|].
  split; [apply validate_out_of_bounds|].
  intros H. apply validate_in_bounds in H. destruct m. unfold in_bounds in H.
  cbn in H. cbn [on_a_bound].
  repeat apply Forall_cons_2; try apply Forall_nil_2;
    apply validate_in_bounds; unfold in_bounds; cbn; lra.
Qed.

(** C10.  Two messages with the same latitude, longitude, altitude, speed
    and heading get the same verdict, whatever their aircraft id, status
    and timestamp. *)
Theorem validate_reads_numeric_fields_only (m1 m2 : Message) :
  same_numbers m1 m2 -> validate m1 = validate m2.
Proof.
  intros (Hla & Hlo & Hal & Hsp & Hhd).
  rewrite !validate_conj. unfold between.
  now rewrite Hla, Hlo, Hal, Hsp, Hhd.
Qed.

End Validate.

(** * The aircraft random walk *)

Section Tick.
Local Open Scope Q_scope.
Import Binary64Facts.

Lemma Qlt_bool_iff x y : Qlt_bool x y = true <-> x < y.
Proof.
  unfold Qlt_bool. rewrite negb_true_iff.
  split; intros H.
  - apply Qnot_le_lt. intros H'. apply Qle_bool_iff in H'. congruence.
  - apply not_true_is_false. rewrite Qle_bool_iff. lra.
Qed.

Lemma Qlt_bool_false x y : Qlt_bool x y = false <-> y <= x.
Proof.
  unfold Qlt_bool. rewrite negb_false_iff. apply Qle_bool_iff.
Qed.

(** [max(0, min(x, hi))] is in [0, hi], whatever [x]. *)
Lemma clamp_range x hi : 0 <= hi -> 0 <= Py.max 0 (Py.min x hi) <= hi.
Proof.
  intros Hhi. unfold Py.max, Py.min.
  destruct (Qlt_bool hi x) eqn:E1.
  - destruct (Qlt_bool 0 hi) eqn:E2; lra.
  - apply Qlt_bool_false in E1.
    destruct (Qlt_bool 0 x) eqn:E2.
    + apply Qlt_bool_iff in E2. lra.
    + lra.
Qed.

Lemma Qtrunc_nonneg q : 0 <= q -> inject_Z (Py.Qtrunc q) <= q < inject_Z (Py.Qtrunc q) + 1.
Proof.
  intros H. unfold Py.Qtrunc.
  apply Qle_bool_iff in H. rewrite H.
  split; [apply Qfloor_le|].
  pose proof (Qlt_floor q) as L. rewrite inject_Z_plus in L. exact L.
Qed.

Lemma Qtrunc_neg q : q < 0 -> inject_Z (Py.Qtrunc q) - 1 < q <= inject_Z (Py.Qtrunc q).
Proof.
  intros H. unfold Py.Qtrunc.
  destruct (Qle_bool 0 q) eqn:E; [apply Qle_bool_iff in E; lra|].
  split; [|apply Qle_ceiling].
  pose proof (Qceiling_lt q) as L.
  unfold Z.sub in L. rewrite inject_Z_plus in L. exact L.
Qed.

(** The remainder of [fmod] has the sign of the dividend and is smaller
    than the divisor. *)
Lemma fmod_range x y :
  0 < y ->
  (0 <= x -> 0 <= Py.fmod x y < y) /\ (x < 0 -> - y < Py.fmod x y <= 0).
Proof.
  intros Hy. unfold Py.fmod.
  assert (E : x == y * (x / y)) by (field; lra).
  split; intros Hx.
  - assert (H0 : 0 <= x / y).
    { apply Qle_shift_div_l; [exact Hy|]. lra. }
    destruct (Qtrunc_nonneg _ H0) as [H1 H2].
    set (t := inject_Z (Py.Qtrunc (x / y))) in *.
    set (d := x / y) in *. nra.
  - assert (H0 : x / y < 0).
    { apply Qlt_shift_div_r; [exact Hy|]. lra. }
    destruct (Qtrunc_neg _ H0) as [H1 H2].
    set (t := inject_Z (Py.Qtrunc (x / y))) in *.
    set (d := x / y) in *. nra.
Qed.

Lemma rnd_0 : rnd 0 == 0.
Proof. reflexivity. Qed.

Lemma rnd_360 : rnd 360 == 360.
Proof. vm_compute. reflexivity. Qed.

(** [x % 360] is in [0, 360], both ends included. *)
Lemma float_rem_360_range x : 0 <= Py.float_rem x 360 <= 360.
Proof.
  unfold Py.float_rem.
  destruct (fmod_range x 360) as [Hpos Hneg]; [reflexivity|].
  destruct (Qeq_bool (Py.fmod x 360) 0) eqn:E0; [lra|].
  change (Qlt_bool 360 0) with false. cbn [xorb].
  destruct (Qlt_bool (Py.fmod x 360) 0) eqn:E1.
  - apply Qlt_bool_iff in E1.
    assert (Hx : x < 0).
    { apply Qnot_le_lt. intros Hx. specialize (Hpos Hx). lra. }
    specialize (Hneg Hx). unfold fadd.
    split.
    + apply Qle_trans with (rnd 0); [apply Qle_refl | apply rnd_mono; lra].
    + apply Qle_trans with (rnd 360); [apply rnd_mono; lra|].
      rewrite rnd_360. apply Qle_refl.
  - apply Qlt_bool_false in E1.
    assert (Hx : 0 <= x).
    { apply Qnot_lt_le. intros Hx. specialize (Hneg Hx).
      assert (Py.fmod x 360 == 0) by lra.
      apply Qeq_bool_iff in H. congruence. }
    specialize (Hpos Hx). lra.
Qed.

(** [a + (b - a) * r] grows with [r]. *)
Lemma scale_mono a b r1 r2 :
  0 <= fsub b a -> r1 <= r2 ->
  fadd a (fmul (fsub b a) r1) <= fadd a (fmul (fsub b a) r2).
Proof.
  intros Hw Hr. unfold fadd, fmul. apply rnd_mono.
  apply Qplus_le_r. apply rnd_mono.
  set (w := fsub b a) in *. nra.
Qed.

Lemma uniform_range a b g :
  unit_stream g ->
  Qle_bool 0 (fsub b a) = true ->
  Qeq_bool (fadd a (fmul (fsub b a) 0)) a = true ->
  Qeq_bool (fadd a (fmul (fsub b a) 1)) b = true ->
  a <= fst (Py.uniform a b g) <= b.
Proof.
  intros Hg Hw H0 H1.
  apply Qle_bool_iff in Hw. apply Qeq_bool_iff in H0, H1.
  destruct (Hg (Py.consumed g)) as [Hr0 Hr1].
  cbn [Py.uniform Py.random fst].
  split.
  - eapply Qle_trans; [|apply (scale_mono a b 0); [exact Hw | exact Hr0]].
    rewrite H0. apply Qle_refl.
  - eapply Qle_trans; [apply (scale_mono a b _ 1); [exact Hw | lra]|].
    rewrite H1. apply Qle_refl.
Qed.

Lemma scaled_draw_range a b r :
  0 <= r < 1 ->
  Qle_bool 0 (fsub b a) = true ->
  Qeq_bool (fadd a (fmul (fsub b a) 0)) a = true ->
  Qeq_bool (fadd a (fmul (fsub b a) 1)) b = true ->
  a <= fadd a (fmul (fsub b a) r) <= b.
Proof.
  intros Hr Hw H0 H1.
  exact (uniform_range a b (Py.mkRandom (fun _ => r) 0) (fun _ => Hr) Hw H0 H1).
Qed.

Lemma unit_stream_next g : unit_stream g -> unit_stream (snd (Py.random g)).
Proof. intros H n. apply H. Qed.

Lemma uniform_stream a b g : Py.stream (snd (Py.uniform a b g)) = Py.stream g.
Proof. reflexivity. Qed.

(** C9, as the code has it.  One pass of the loop body, from any state
    and for any values of the generator in [0, 1), leaves the altitude in
    [0, 60000], the speed in [0, 700] and the heading in [0, 360], the
    upper end included; the five perturbations are within 0.05 degree
    (twice), 400 ft, 10 kt and 5 degrees before clamping; and the message
    built carries the new state. *)
Theorem aircraft_tick_keeps_ranges (now : string) (a : Aircraft) :
  unit_stream (rng a) ->
  let a' := fst (aircraft_tick now a) in
  let msg := snd (aircraft_tick now a) in
  (0 <= alt a' <= 60000 /\ 0 <= spd a' <= 700 /\ 0 <= hdg a' <= 360) /\
  random_walk_step a a' /\
  carries msg a' /\
  unit_stream (rng a').
Proof.
  intros Hg. unfold aircraft_tick, Py.uniform, Py.random.
  cbn [fst snd alt spd hdg lat lon rng ac_id Py.stream Py.consumed].
  repeat split.
  - apply clamp_range; lra.
  - apply clamp_range; lra.
  - apply clamp_range; lra.
  - apply clamp_range; lra.
  - apply float_rem_360_range.
  - apply float_rem_360_range.
  - unfold random_walk_step.
    cbn [fst snd alt spd hdg lat lon rng ac_id Py.stream Py.consumed].
    do 5 eexists.
    split; [|split; [|split; [|split; [|split;
      [|repeat split; reflexivity]]]]]; unfold within.
    + apply scaled_draw_range; [apply Hg | vm_compute; reflexivity ..].
    + apply scaled_draw_range; [apply Hg | vm_compute; reflexivity ..].
    + pose proof (scaled_draw_range (-400) 400 _ (Hg (S (S (Py.consumed (rng a)))))) as H.
      apply H; vm_compute; reflexivity.
    + pose proof (scaled_draw_range (-10) 10 _ (Hg (S (S (S (Py.consumed (rng a))))))) as H.
      apply H; vm_compute; reflexivity.
    + pose proof (scaled_draw_range (-5) 5 _ (Hg (S (S (S (S (Py.consumed (rng a)))))))) as H.
      apply H; vm_compute; reflexivity.
  - cbn. destruct (Qlt_bool _ _); auto.
  - apply Hg.
  - apply Hg.
Qed.

End Tick.

(** * Runs of the event loop *)

Section RunFacts.

Lemma byes_in_app l1 l2 : byes_in (l1 ++ l2) = byes_in l1 + byes_in l2.
Proof. unfold byes_in. now rewrite List.filter_app, length_app. Qed.

Lemma data_in_app l1 l2 : data_in (l1 ++ l2) = data_in l1 + data_in l2.
Proof. unfold data_in. now rewrite List.filter_app, length_app. Qed.

Lemma sent_by_app id l1 l2 : sent_by id (l1 ++ l2) = sent_by id l1 ++ sent_by id l2.
Proof. apply List.filter_app. Qed.

Lemma byes_in_one m : byes_in [m] = if is_bye m then 1 else 0.
Proof. unfold byes_in. cbn. now destruct (is_bye m). Qed.

Lemma data_in_one m : data_in [m] = if is_bye m then 0 else 1.
Proof. unfold data_in, is_data. cbn. now destruct (is_bye m). Qed.

Lemma sent_by_one id m :
  sent_by id [m] = if Nat.eqb (aircraft_id m) id then [m] else [].
Proof. reflexivity. Qed.

Lemma data_in_no_byes l : byes_in l = 0 -> data_in l = length l.
Proof.
  unfold byes_in, data_in, is_data. induction l as [|m l IH]; cbn; [done|].
  destruct (is_bye m); cbn; [discriminate|]. intros H. now rewrite IH.
Qed.


Lemma sent_by_In id m l : In m (sent_by id l) <-> In m l /\ aircraft_id m = id.
Proof. unfold sent_by. rewrite List.filter_In, Nat.eqb_eq. tauto. Qed.

Lemma byes_in_In m l : In m l -> is_bye m = true -> 0 < byes_in l.
Proof.
  intros Hin Hb. unfold byes_in.
  assert (H : In m (List.filter is_bye l)) by (apply List.filter_In; auto).
  destruct (List.filter is_bye l); [destruct H | cbn; lia].
Qed.

(** Replacing one task changes the number of finished tasks by what the
    old and the new task contribute. *)
Lemma done_insert (ts : list Task) i t t' :
  ts !! i = Some t ->
  length (List.filter is_done (<[i:=t']> ts)) + Nat.b2n (is_done t) =
  length (List.filter is_done ts) + Nat.b2n (is_done t').
Proof.
  revert i. induction ts as [|x ts IH]; intros [|i] H; try discriminate.
  - cbn in H. injection H as ->. cbn.
    destruct (is_done t), (is_done t'); cbn; lia.
  - cbn in H. simpl. specialize (IH i H).
    destruct (is_done x); simpl; lia.
Qed.

Lemma done_all (ts : list Task) :
  length (List.filter is_done ts) = length ts -> Forall (fun t => t = AcDone) ts.
Proof.
  induction ts as [|x ts IH]; cbn; [constructor|].
  pose proof (List.filter_length_le is_done ts) as Hle.
  destruct x; cbn; try lia.
  intros H. constructor; [done|]. apply IH. lia.
Qed.

Lemma done_created k n :
  List.filter is_done (map (fun i => AcCreated (i + 1)) (seq k n)) = [].
Proof. revert k. induction n as [|n IH]; intros k; cbn; [done|apply IH]. Qed.

End RunFacts.

Section Run.

Variable cfg : Config.
Variable Random_seeded : Z -> Py.Random.
Variable can_open : string -> bool.

Abbreviation run_step := (step cfg Random_seeded can_open).
Abbreviation Inv := (Inv cfg can_open).
Abbreviation N := (NUM_AIRCRAFT cfg).

Ltac wsimpl :=
  cbn [running queue tasks tower console mpc pushed popped
       set_main set_task put].

Ltac pc_absurd :=
  solve [ intros [[?|?]|[?|?]]; discriminate
        | intros [?|?]; discriminate
        | intros ?; discriminate ].

Lemma Inv_initial : Inv initial.
Proof.
  constructor; cbn; try done; try pc_absurd.
Qed.

Lemma aenter_tallies t t' :
  ControlTower_aenter can_open t = inr t' ->
  processed t' = processed t /\ rejected t' = rejected t /\ byes t' = byes t.
Proof.
  unfold ControlTower_aenter. intros H.
  destruct (csv_path t); [|injection H as <-; done].
  destruct (truthy _); [|injection H as <-; done].
  destruct (can_open _); [|discriminate]. injection H as <-. done.
Qed.

Lemma aexit_tallies t :
  processed (ControlTower_aexit t) = processed t /\
  rejected (ControlTower_aexit t) = rejected t /\
  byes (ControlTower_aexit t) = byes t.
Proof. unfold ControlTower_aexit. destruct (csv_file t); done. Qed.

Lemma run_body_tallies n msg t t' out e :
  ControlTower_run_body cfg n msg t = (t', out, e) ->
  processed t' + rejected t' = processed t + rejected t + (if is_bye msg then 0 else 1) /\
  byes t' = byes t + (if is_bye msg then 1 else 0).
Proof.
  unfold ControlTower_run_body, is_bye. intros H.
  destruct (String.eqb (status msg) "BYE").
  - injection H as <- _ _. cbn. lia.
  - destruct (validate msg); cbn in H.
    + destruct (Nat.eqb (PRINT_PROGRESS_EVERY cfg) 0);
        injection H as <- _ _; cbn; lia.
    + injection H as <- _ _; cbn; lia.
Qed.

Lemma lookup_created i t n :
  map (fun i => AcCreated (i + 1)) (seq 0 n) !! i = Some t -> t = AcCreated (S i).
Proof.
  rewrite list_lookup_fmap. intros H.
  destruct (seq 0 n !! i) as [j|] eqn:E; [|discriminate].
  apply lookup_seq in E as [-> _]. cbn in H. injection H as <-.
  f_equal. lia.
Qed.

Lemma main_start_inv w : Inv w -> mpc w = MStart -> Inv (main_start cfg can_open w).
Proof.
  intros I Hpc. unfold main_start.
  pose proof (inv_window _ I (or_introl Hpc)) as Hpop.
  pose proof (inv_tally _ I) as Ht. pose proof (inv_byes _ I) as Hb.
  rewrite Hpop in Ht, Hb. cbn in Ht, Hb.
  destruct (ControlTower_aenter _ _) as [e|t] eqn:E.
  - constructor; cbn; try done; try pc_absurd.
    + now rewrite length_map, length_seq.
    + intros i t H. apply lookup_created in H as ->. cbn. split; [done|constructor].
    + now rewrite done_created.
  - destruct (aenter_tallies _ _ E) as (Hp & Hr & Hby). cbn in Hp, Hr, Hby.
    constructor; cbn; try done; try pc_absurd; try lia.
    + now rewrite length_map, length_seq.
    + intros i t' H. apply lookup_created in H as ->. cbn. split; [done|constructor].
    + now rewrite done_created.
Qed.

Lemma emitted_running id t h :
  is_done t = false -> emitted_so_far id t h = data_only (sent_by id h).
Proof. destruct t; cbn; intros; done. Qed.

Lemma emitted_same id t h h' :
  sent_by id h' = sent_by id h -> emitted_so_far id t h -> emitted_so_far id t h'.
Proof. intros E. destruct t; cbn; rewrite E; done. Qed.

Lemma sent_by_push_other id msg h :
  aircraft_id msg <> id -> sent_by id (h ++ [msg]) = sent_by id h.
Proof.
  intros Hne. rewrite sent_by_app, sent_by_one.
  apply Nat.eqb_neq in Hne. rewrite Hne. apply app_nil_r.
Qed.

Lemma sent_by_push_own msg h :
  sent_by (aircraft_id msg) (h ++ [msg]) = sent_by (aircraft_id msg) h ++ [msg].
Proof. rewrite sent_by_app, sent_by_one. now rewrite Nat.eqb_refl. Qed.

(** The main task moves on; tasks, queue and histories are untouched. *)
Lemma set_main_inv w r t out pc :
  Inv w ->
  processed t + rejected t = processed (tower w) + rejected (tower w) ->
  byes t = byes (tower w) ->
  mpc w <> MStart -> pc <> MStart ->
  (pc = MRunTest \/ pc = MRunGet \/ pc = MGather \/ pc = MDone -> r = false) ->
  (pc = MWindow -> popped w = [] /\
     ControlTower_aenter can_open (ControlTower_init (Some (LOG_CSV cfg))) = inr t) ->
  (pc = MGather \/ pc = MDone -> N <= byes t) ->
  Inv (set_main r t out pc w).
Proof.
  intros I Ht Hb Hpc0 Hpc Hstop Hwin Hexit.
  destruct I as [I1 I2 I3 I4 I5 I6 I7 I8 I9 I10 I11].
  constructor; wsimpl; try done; try lia.
  - rewrite I4. destruct (mpc w), pc; done.
  - unfold in_loop, loop_exited. cbn. intros H. apply Hstop. tauto.
  - intros [H|H]; [done|]. now apply Hwin.
  - intros H. now apply Hwin.
Qed.

(** A task moves on without touching the queue. *)
Lemma set_task_inv w i t t' :
  Inv w -> tasks w !! i = Some t ->
  is_done t = false -> is_done t' = false -> task_wf (S i) t' ->
  Inv (set_task i t' w).
Proof.
  intros I Hi Hd Hd' Hwf.
  destruct I as [I1 I2 I3 I4 I5 I6 I7 I8 I9 I10 I11].
  constructor; wsimpl; try done.
  - now rewrite length_insert.
  - intros j u Hj. destruct (decide (i = j)) as [<-|Hne].
    + rewrite list_lookup_insert_eq in Hj by (eapply lookup_lt_Some; eauto).
      injection Hj as <-. split; [done|].
      rewrite emitted_running by done.
      destruct (I5 _ _ Hi) as [_ He]. now rewrite emitted_running in He.
    + rewrite list_lookup_insert_ne in Hj by done. now apply I5.
  - pose proof (done_insert _ _ _ t' Hi) as H. rewrite Hd, Hd' in H. cbn in H. lia.
Qed.

(** A task puts a message on the queue and moves on. *)
Lemma put_inv w i t t' msg :
  Inv w -> tasks w !! i = Some t -> mpc w <> MStart ->
  is_done t = false -> aircraft_id msg = S i ->
  task_wf (S i) t' ->
  (if is_bye msg then t' = AcDone /\ zeroed msg else is_done t' = false) ->
  Inv (set_task i t' (put msg w)).
Proof.
  intros I Hi Hpc Hd Hid Hwf Hmsg.
  destruct I as [I1 I2 I3 I4 I5 I6 I7 I8 I9 I10 I11].
  assert (Hlt : i < length (tasks w)) by (eapply lookup_lt_Some; eauto).
  constructor; wsimpl; try done.
  - rewrite I1. now rewrite app_assoc.
  - now rewrite length_insert.
  - intros j u Hj. destruct (decide (i = j)) as [<-|Hne].
    + rewrite list_lookup_insert_eq in Hj by done.
      injection Hj as <-. split; [done|].
      destruct (I5 _ _ Hi) as [_ He]. rewrite emitted_running in He by done.
      rewrite <- Hid in He |- *.
      destruct (is_bye msg) eqn:Eb.
      * destruct Hmsg as [-> Hz]. cbn [emitted_so_far].
        rewrite sent_by_push_own.
        exists (sent_by (aircraft_id msg) (pushed w)), msg. done.
      * rewrite emitted_running by done. rewrite sent_by_push_own.
        apply Forall_app. split; [done|]. constructor; [|constructor].
        unfold is_data. now rewrite Eb.
    + rewrite list_lookup_insert_ne in Hj by done.
      destruct (I5 _ _ Hj) as [Hw He]. split; [done|].
      eapply emitted_same; [|exact He]. apply sent_by_push_other. lia.
  - apply Forall_app. split; [done|]. constructor; [|constructor].
    rewrite I4 in Hlt. destruct (mpc w); try done; lia.
  - rewrite byes_in_app, byes_in_one.
    pose proof (done_insert _ _ _ t' Hi) as H. rewrite Hd in H.
    destruct (is_bye msg).
    + destruct Hmsg as [-> _]. cbn in H. lia.
    + rewrite Hmsg in H. cbn in H. lia.
Qed.

Lemma main_inv w w' : Inv w -> main cfg can_open w = Some w' -> Inv w'.
Proof.
  intros I H. unfold main in H.
  destruct (mpc w) eqn:Hpc; try discriminate.
  - injection H as <-. now apply main_start_inv.
  - injection H as <-.
    apply set_main_inv;
      [exact I | done | done | now rewrite Hpc | done | done
      | discriminate | intros [|]; discriminate].
  - pose proof (inv_stop _ I) as Hstop.
    unfold ControlTower_run_test in H.
    destruct (running w) eqn:Hr.
    { exfalso. assert (true = false); [|done].
      apply Hstop. left. now left. }
    cbn [orb] in H.
    destruct (Nat.ltb_spec (byes (tower w)) N) as [Hlt|Hge];
      injection H as <-.
    + apply set_main_inv;
        [exact I | done | done | now rewrite Hpc | done | done
        | discriminate | intros [|]; discriminate].
    + destruct (aexit_tallies (tower w)) as (Hp & Hrj & Hb).
      apply set_main_inv;
        [exact I | lia | done | now rewrite Hpc | done | done
        | discriminate | intros _; lia].
  - destruct (forallb is_done (tasks w)); [|discriminate]. injection H as <-.
    apply set_main_inv;
      [exact I | done | done | now rewrite Hpc | done
      | intros _; apply (inv_stop _ I); right; now left
      | discriminate
      | intros _; apply (inv_exit _ I); now left].
Qed.

Lemma ControlTower_run_get_inv b w w' : Inv w -> ControlTower_run_get cfg b w = Some w' -> Inv w'.
Proof.
  intros I H. unfold ControlTower_run_get in H.
  destruct (mpc w) eqn:Hpc; try discriminate.
  assert (Hr : running w = false).
  { apply (inv_stop _ I). left. now right. }
  destruct b.
  - injection H as <-.
    apply set_main_inv;
      [exact I | done | done | now rewrite Hpc | done | done
      | discriminate | intros [|]; discriminate].
  - destruct (queue w) as [|msg rest] eqn:Hq; [discriminate|].
    destruct (ControlTower_run_body _ _ _ _) as [[t out] e] eqn:Eh.
    destruct (run_body_tallies _ _ _ _ _ _ Eh) as [Ht Hb].
    assert (I1 : processed t + rejected t = data_in (popped w ++ [msg]) /\
                 byes t = byes_in (popped w ++ [msg])).
    { rewrite data_in_app, byes_in_app, data_in_one, byes_in_one.
      rewrite <- (inv_tally _ I), <- (inv_byes _ I). lia. }
    destruct I1 as [I1 I2].
    destruct (aexit_tallies t) as (Hp' & Hr' & Hb').
    destruct I as [J1 J2 J3 J4 J5 J6 J7 J8 J9 J10 J11].
    destruct e as [e|]; injection H as <-;
      (constructor; wsimpl; try done; try pc_absurd; try lia;
       try (rewrite J1, Hq; now rewrite <- app_assoc);
       try (rewrite J4, Hpc; done)).
Qed.

Lemma tick_wf now a :
  let '(a', msg) := aircraft_tick now a in
  ac_id a' = ac_id a /\ aircraft_id msg = ac_id a /\ is_data msg = true.
Proof.
  unfold aircraft_tick, Py.uniform, Py.random. cbn.
  repeat split. unfold is_data, is_bye. cbn.
  now destruct (Binary64.Qlt_bool _ _).
Qed.

#[local] Arguments aircraft_tick : simpl never.
#[local] Arguments aircraft_start : simpl never.
#[local] Arguments aircraft_delay : simpl never.

Lemma aircraft_task_inv i now w w' :
  Inv w -> mpc w <> MStart ->
  aircraft_task cfg Random_seeded i now w = Some w' -> Inv w'.
Proof.
  intros I Hpc H. unfold aircraft_task in H.
  destruct (tasks w !! i) as [t|] eqn:Hi; [|discriminate].
  cbn [mbind option_bind] in H.
  destruct (inv_task _ I _ _ Hi) as [Hwf _].
  destruct t; cbn in Hwf.
  - injection H as <-.
    now apply (set_task_inv w i (AcCreated id)).
  - destruct (running w).
    + pose proof (tick_wf now a) as Ht.
      destruct (aircraft_tick now a) as [a' msg].
      destruct Ht as (Ha & Hm & Hd).
      injection H as <-.
      apply (set_task_inv w i (AcLoop a)); try done.
      cbn. rewrite Ha, Hm. done.
    + injection H as <-.
      apply (set_task_inv w i (AcLoop a)); try done.
  - destruct (full _ _); [discriminate|].
    destruct Hwf as (Ha & Hm & Hd).
    destruct (aircraft_delay cfg a) as [d a'] eqn:Ed.
    injection H as <-.
    apply (put_inv w i (AcPut a msg)); try done.
    + unfold aircraft_delay in Ed. cbn in Ed. injection Ed as _ <-. exact Ha.
    + unfold is_data in Hd. apply negb_true_iff in Hd. now rewrite Hd.
  - injection H as <-.
    now apply (set_task_inv w i (AcSleep a delay)).
  - destruct (full _ _); [discriminate|].
    destruct Hwf as (Hm & Hb & Hz).
    injection H as <-.
    apply (put_inv w i (AcBye msg)); try done. now rewrite Hb.
  - discriminate.
Qed.

Lemma handle_sig_inv w w' : Inv w -> handle_sig w = Some w' -> Inv w'.
Proof.
  intros I H. unfold handle_sig in H.
  destruct (loop_alive (mpc w)) eqn:Ha; [|discriminate].
  assert (Hpc : mpc w <> MStart) by (intros E; now rewrite E in Ha).
  destruct (running w) eqn:Hr; injection H as <-.
  - apply set_main_inv;
      [ exact I | done | done | done | done | done
      | intros E; split; [apply (inv_window _ I); now right
                         | now apply (inv_open _ I)]
      | apply (inv_exit _ I) ].
  - apply set_main_inv;
      [ exact I | done | done | done | done | done
      | discriminate | intros [|]; discriminate ].
Qed.

Lemma step_inv l w w' : Inv w -> run_step l w = Some w' -> Inv w'.
Proof.
  intros I H. destruct l; cbn in H.
  - eapply main_inv; eauto.
  - eapply ControlTower_run_get_inv; eauto.
  - destruct (loop_alive (mpc w)) eqn:Ha; [|discriminate].
    eapply aircraft_task_inv; eauto. intros E. now rewrite E in Ha.
  - eapply handle_sig_inv; eauto.
Qed.

Lemma exec_inv ls w w' :
  Inv w -> exec cfg Random_seeded can_open ls w = Some w' -> Inv w'.
Proof.
  revert w. induction ls as [|l ls IH]; intros w I H; cbn in H.
  - now injection H as <-.
  - destruct (run_step l w) as [w1|] eqn:E; [|discriminate]. cbn in H.
    eapply IH; [|exact H]. eapply step_inv; eauto.
Qed.

Lemma reachable_inv w : reachable cfg Random_seeded can_open w -> Inv w.
Proof. intros [ls H]. eapply exec_inv; [apply Inv_initial | exact H]. Qed.

Lemma byes_le_tasks w : Inv w -> byes (tower w) + byes_in (queue w) <= length (tasks w).
Proof.
  intros I. rewrite (inv_byes _ I), <- byes_in_app, <- (inv_hist _ I), (inv_done _ I).
  apply List.filter_length_le.
Qed.

(** Once the loop of [run] is left, every BYE message has been taken,
    every task has returned and the queue is empty. *)
Lemma exited_drained w :
  Inv w -> loop_exited w ->
  byes (tower w) = N /\ Forall (fun t => t = AcDone) (tasks w) /\ queue w = [].
Proof.
  intros I Hex.
  pose proof (byes_le_tasks w I) as Hle.
  pose proof (inv_exit _ I Hex) as Hge.
  pose proof (inv_len _ I) as Hlen.
  assert (Hn : length (tasks w) = N).
  { rewrite Hlen. destruct Hex as [E|E]; now rewrite E. }
  assert (Hb : byes (tower w) = N) by lia.
  assert (Hq : byes_in (queue w) = 0) by lia.
  assert (Hd : Forall (fun t => t = AcDone) (tasks w)).
  { apply done_all. rewrite <- (inv_done _ I), (inv_hist _ I), byes_in_app,
      <- (inv_byes _ I). lia. }
  split; [exact Hb|]. split; [exact Hd|].
  assert (Hno : forall m, In m (queue w) -> False).
  2: { destruct (queue w) as [|m rest]; [done|]. exfalso. apply (Hno m). now left. }
  intros m Hm.
  assert (Hp : In m (pushed w)).
  { rewrite (inv_hist _ I). apply in_or_app. now right. }
  pose proof (inv_ids _ I) as Hids. rewrite Forall_forall in Hids.
  apply list_elem_of_In in Hp. specialize (Hids _ Hp).
  destruct (aircraft_id m) as [|i] eqn:Eid; [lia|].
  assert (Hi : i < length (tasks w)) by lia.
  apply lookup_lt_is_Some_2 in Hi as [t Ht].
  assert (t = AcDone) as ->.
  { rewrite Forall_forall in Hd. apply Hd. eapply list_elem_of_lookup_2; eauto. }
  destruct (inv_task _ I _ _ Ht) as [_ (l & bye & Hs & _ & Hbye & _)].
  rewrite (inv_hist _ I), sent_by_app in Hs.
  assert (Hin : In m (sent_by (S i) (queue w))) by (apply sent_by_In; done).
  destruct (sent_by (S i) (queue w)) as [|x xs] eqn:Es; [destruct Hin|].
  destruct (exists_last (l:=x :: xs)) as (l' & last & El); [done|].
  rewrite El, app_assoc in Hs. apply app_inj_tail in Hs as [_ ->].
  assert (Hbq : In bye (queue w)).
  { apply (sent_by_In (S i)). rewrite Es, El. apply in_or_app. right. now left. }
  pose proof (byes_in_In _ _ Hbq Hbye). lia.
Qed.

(** ** The loop of [run] *)

Lemma run_test_false r n t :
  ControlTower_run_test r n t = false <-> r = false /\ n <= byes t.
Proof.
  unfold ControlTower_run_test. rewrite orb_false_iff, Nat.ltb_ge. tauto.
Qed.

(** C1.  The loop of [run] is left only when the stop signal is asserted
    ([stop_event] cleared) and every aircraft has said BYE: its condition
    is false exactly then; at the test of the loop the tower leaves it
    exactly when [running] is false and [byes] equals the number of
    aircraft, and goes on to wait on the queue otherwise; and in every
    state after the loop [running] is false and [byes] is that number. *)
Theorem run_loop_exits_only_when_stopped_and_all_byes (w : World) :
  reachable cfg Random_seeded can_open w ->
  (forall r n t, ControlTower_run_test r n t = false <-> r = false /\ n <= byes t) /\
  (mpc w = MRunTest ->
   exists w', run_step LMain w = Some w' /\
     (loop_exited w' <-> running w = false /\ byes (tower w) = N) /\
     (running w = true \/ byes (tower w) < N ->
      mpc w' = MRunGet /\ tower w' = tower w)) /\
  (loop_exited w -> running w = false /\ byes (tower w) = N).
Proof.
  intros Hr. apply reachable_inv in Hr as I.
  split; [apply run_test_false|]. split.
  - intros Hpc. cbn [step]. unfold main. rewrite Hpc.
    pose proof (byes_le_tasks w I) as Hle.
    rewrite (inv_len _ I), Hpc in Hle.
    destruct (ControlTower_run_test _ _ _) eqn:Ec; eexists; (split; [reflexivity|]).
    + unfold loop_exited. wsimpl.
      assert (Hn : ~ (running w = false /\ N <= byes (tower w))).
      { rewrite <- run_test_false, Ec. done. }
      split; [|done]. split; [intros [|]; discriminate|].
      intros [? ?]. exfalso. apply Hn. split; [done|lia].
    + apply run_test_false in Ec as [E1 E2]. unfold loop_exited. wsimpl.
      split; [split; [intros _; split; [done|lia] | now left]|].
      intros [H|H]; [congruence | lia].
  - intros Hex. split; [apply (inv_stop _ I); now right|].
    now destruct (exited_drained w I Hex).
Qed.

(** C2.  When the loop of [run] has been left, nothing is in flight:
    the queue is empty, every message ever put on it has been taken, the
    accepted and rejected tallies add up to the number of data (OK or
    WARN) messages that the aircraft tasks have put, and [byes] is the
    number of aircraft. *)
Theorem no_message_in_flight_after_the_loop (w : World) :
  reachable cfg Random_seeded can_open w ->
  loop_exited w ->
  processed (tower w) + rejected (tower w) = data_in (pushed w) /\
  byes (tower w) = N /\
  popped w = pushed w /\ queue w = [].
Proof.
  intros Hr Hex. apply reachable_inv in Hr as I.
  destruct (exited_drained w I Hex) as (Hb & _ & Hq).
  pose proof (inv_hist _ I) as Hh. rewrite Hq, app_nil_r in Hh.
  rewrite Hh. split; [apply (inv_tally _ I)|]. done.
Qed.


(** ** The orchestration *)



(** ** The body of the loop of [run] *)

(** C7.  When the message taken from the queue has status BYE, whatever
    its other fields and so whether or not [validate] would accept it,
    the tower adds one to [byes] and leaves [processed], [rejected] and
    the log as they are; the only line printed is the termination
    notice, and the loop goes back to its test. *)
Theorem bye_message_only_counts_as_bye (w : World) (msg : Message)
    (rest : list Message) :
  mpc w = MRunGet ->
  queue w = msg :: rest ->
  status msg = "BYE" ->
  ControlTower_run_body cfg N msg (tower w) =
    (mkControlTower (csv_path (tower w)) (processed (tower w))
       (rejected (tower w)) (S (byes (tower w))) (writer (tower w))
       (csv_file (tower w)),
     [TowerBye (aircraft_id msg) (ts msg) (S (byes (tower w))) N], None) /\
  exists w',
    run_step (LGet false) w = Some w' /\
    byes (tower w') = S (byes (tower w)) /\
    same_tallies (tower w) (tower w') /\
    queue w' = rest /\ mpc w' = MRunTest.
Proof.
  intros Hpc Hq Hs.
  assert (E : ControlTower_run_body cfg N msg (tower w) =
    (mkControlTower (csv_path (tower w)) (processed (tower w))
       (rejected (tower w)) (S (byes (tower w))) (writer (tower w))
       (csv_file (tower w)),
     [TowerBye (aircraft_id msg) (ts msg) (S (byes (tower w))) N], None)).
  { unfold ControlTower_run_body. now rewrite Hs. }
  split; [exact E|].
  cbn [step]. unfold ControlTower_run_get. rewrite Hpc, Hq, E.
  eexists. split; [reflexivity|]. unfold same_tallies. done.
Qed.

(** C8.  A timeout of the wait on the queue is not an error and changes
    nothing: the tower, the queue, the histories, the tasks and the
    console are the same afterwards, and the loop is at its test again;
    if the loop condition holds, the tower waits on the queue again. *)
Theorem timeout_changes_nothing (w : World) :
  mpc w = MRunGet ->
  exists w',
    run_step (LGet true) w = Some w' /\
    tower w' = tower w /\ queue w' = queue w /\
    popped w' = popped w /\ pushed w' = pushed w /\
    tasks w' = tasks w /\ console w' = console w /\
    running w' = running w /\ mpc w' = MRunTest /\
    (ControlTower_run_test (running w) N (tower w) = true ->
     exists w'', run_step LMain w' = Some w'' /\ mpc w'' = MRunGet /\
                 tower w'' = tower w /\ queue w'' = queue w).
Proof.
  intros Hpc. cbn [step]. unfold ControlTower_run_get. rewrite Hpc.
  eexists. split; [reflexivity|]. wsimpl. rewrite app_nil_r.
  repeat split. intros Hc. unfold main. wsimpl. rewrite Hc.
  eexists. done.
Qed.

End Run.

(** * The properties on sample runs *)

Section NumericSamples.
Local Open Scope Q_scope.

Lemma validate_accepts_exactly_the_bounds_witness :
  validate (mkMessage 1 90 (-180) 60000 0 360 "OK" "t") = true /\
  validate (mkMessage 1 91 0 0 0 0 "OK" "t") = false.
Proof.
  split.
  - apply (validate_accepts_exactly_the_bounds
             (mkMessage 1 90 (-180) 60000 0 360 "OK" "t")).
    unfold in_bounds; cbn; repeat split; apply Qle_bool_iff; reflexivity.
  - apply (validate_accepts_exactly_the_bounds
             (mkMessage 1 91 0 0 0 0 "OK" "t")).
    unfold out_of_bounds; cbn. right. left. reflexivity.
Defined.

Lemma validate_reads_numeric_fields_only_witness :
  validate (mkMessage 1 10 20 30000 400 (180 # 1) "OK" "t0") =
  validate (mkMessage 2 10 20 30000 400 (360 # 2) "BYE" "t1").
Proof.
  apply validate_reads_numeric_fields_only.
  unfold same_numbers; cbn. repeat split; reflexivity.
Defined.

Lemma half_rng_unit seed : unit_stream (half_rng seed).
Proof. intros n. cbn. lra. Qed.

Lemma aircraft_tick_keeps_ranges_witness :
  unit_stream (rng (aircraft_start half_rng 1)) /\
  0 <= hdg (fst (aircraft_tick "t" (aircraft_start half_rng 1))) <= 360.
Proof.
  split; [apply half_rng_unit|].
  pose proof (aircraft_tick_keeps_ranges "t" (aircraft_start half_rng 1)
                (half_rng_unit _)) as H.
  cbv zeta in H. destruct H as ((_ & _ & H) & _). exact H.
Defined.

(** C9, as the claim states it, fails on the heading.  With a starting
    heading of 360 * 2^-53 and a perturbation of -46 * 2^-50, both of
    which [uniform] returns for values of [random()] that are multiples
    of 2^-53 in [0, 1), the sum is -2^-50; its remainder by 360 is
    360 - 2^-50, which rounds to 360: after the first tick the heading,
    and the heading of the message, is 360 and not below it. *)
Lemma heading_reaches_360 :
  unit_stream (rng (aircraft_start edge_rng 1)) /\
  hdg (aircraft_start edge_rng 1) == 45 # 2 ^ 50 /\
  hdg (fst (aircraft_tick "t" (aircraft_start edge_rng 1))) == 360 /\
  heading_deg (snd (aircraft_tick "t" (aircraft_start edge_rng 1))) == 360 /\
  ~ hdg (fst (aircraft_tick "t" (aircraft_start edge_rng 1))) < 360.
Proof.
  assert (H : hdg (fst (aircraft_tick "t" (aircraft_start edge_rng 1))) == 360).
  { vm_compute. reflexivity. }
  split; [|split; [|split; [exact H|split]]].
  - intros n. cbn.
    destruct (Nat.eqb n 4); [|destruct (Nat.eqb n 9)];
      split; (apply Qle_bool_iff || apply Qlt_bool_iff); vm_compute; reflexivity.
  - vm_compute. reflexivity.
  - vm_compute. reflexivity.
  - rewrite H. apply Qlt_irrefl.
Qed.

End NumericSamples.

Section RunSamples.

Lemma full_run_reachable ls :
  exec cfg2 half_rng always_open ls initial
    = Some (run_of cfg2 half_rng always_open ls) ->
  reachable cfg2 half_rng always_open (run_of cfg2 half_rng always_open ls).
Proof. intros H. exists ls. exact H. Qed.

Lemma run_loop_exits_only_when_stopped_and_all_byes_witness :
  reachable cfg2 half_rng always_open
    (run_of cfg2 half_rng always_open run_to_test) /\
  exists w',
    step cfg2 half_rng always_open LMain
      (run_of cfg2 half_rng always_open run_to_test) = Some w' /\
    loop_exited w'.
Proof.
  assert (Hr : reachable cfg2 half_rng always_open
                 (run_of cfg2 half_rng always_open run_to_test)).
  { apply full_run_reachable. vm_compute. reflexivity. }
  split; [exact Hr|].
  destruct (run_loop_exits_only_when_stopped_and_all_byes
              cfg2 half_rng always_open _ Hr) as (_ & H & _).
  destruct H as (w' & Hs & Hex & _); [vm_compute; reflexivity|].
  exists w'. split; [exact Hs|]. apply Hex. vm_compute. split; reflexivity.
Defined.

Lemma no_message_in_flight_after_the_loop_witness :
  loop_exited (run_of cfg2 half_rng always_open full_run) /\
  data_in (pushed (run_of cfg2 half_rng always_open full_run)) = 1 /\
  processed (tower (run_of cfg2 half_rng always_open full_run)) +
  rejected (tower (run_of cfg2 half_rng always_open full_run)) =
  data_in (pushed (run_of cfg2 half_rng always_open full_run)).
Proof.
  assert (Hex : loop_exited (run_of cfg2 half_rng always_open full_run)).
  { right. vm_compute. reflexivity. }
  split; [exact Hex|]. split; [vm_compute; reflexivity|].
  assert (Hr : reachable cfg2 half_rng always_open
                 (run_of cfg2 half_rng always_open full_run)).
  { apply full_run_reachable. vm_compute. reflexivity. }
  destruct (no_message_in_flight_after_the_loop cfg2 half_rng always_open
              _ Hr Hex) as (H & _).
  exact H.
Defined.






Lemma bye_message_only_counts_as_bye_witness :
  validate odd_bye = false /\
  exists w',
    step cfg2 half_rng always_open (LGet false) world_with_odd_bye = Some w' /\
    byes (tower w') = 1 /\ processed (tower w') = 3 /\ rejected (tower w') = 1.
Proof.
  split; [vm_compute; reflexivity|].
  destruct (bye_message_only_counts_as_bye cfg2 half_rng always_open
              world_with_odd_bye odd_bye [])
    as (_ & w' & Hs & Hb & (Hp & Hr & _) & _); [reflexivity ..|].
  exists w'. split; [exact Hs|]. split; [exact Hb|]. split; [exact Hp|exact Hr].
Defined.

Lemma timeout_changes_nothing_witness :
  exists w',
    step cfg2 half_rng always_open (LGet true)
      (run_of cfg2 half_rng always_open run_to_get) = Some w' /\
    tower w' = tower (run_of cfg2 half_rng always_open run_to_get) /\
    queue w' = queue (run_of cfg2 half_rng always_open run_to_get).
Proof.
  destruct (timeout_changes_nothing cfg2 half_rng always_open
              (run_of cfg2 half_rng always_open run_to_get))
    as (w' & Hs & Ht & Hq & _); [vm_compute; reflexivity|].
  exists w'. split; [exact Hs|]. split; [exact Ht|exact Hq].
Defined.

End RunSamples.

(** * The rounding model against the primitive floats *)

Section PrimitiveFloats.

(** On the sample values and their opposites, taken two by two, the four
    operations of the model give what the binary64 operations of the
    kernel give whenever that is finite: exact results, roundings up and
    down, ties, subnormal results. *)
Lemma model_agrees_with_primitive_floats :
  agree_on_samples PrimFloat.add fadd = true /\
  agree_on_samples PrimFloat.sub fsub = true /\
  agree_on_samples PrimFloat.mul fmul = true /\
  agree_on_samples PrimFloat.div fdiv = true.
Proof. split; [|split; [|split]]; vm_compute; reflexivity. Qed.

(** The floats of the run in which the heading reaches 360: the starting
    heading, the perturbation, their sum, and the sum plus 360. *)
Lemma edge_case_on_primitive_floats :
  Qeq_bool (of_float (0 + (360 - 0) * 0x1p-53)%float) (45 # 2 ^ 50) = true /\
  Qeq_bool (of_float (-5 + (5 - -5) * r_edge)%float) (- (46 # 2 ^ 50)) = true /\
  Qeq_bool (of_float ((0 + (360 - 0) * 0x1p-53) + (-5 + (5 - -5) * r_edge))%float)
    (- (1 # 2 ^ 50)) = true /\
  (-0x1p-50 + 360 =? 360)%float = true.
Proof. split; [|split; [|split]]; vm_compute; reflexivity. Qed.

End PrimitiveFloats.

(** * The aircraft task over many ticks *)

Section Walk.
Local Open Scope Q_scope.
Import Binary64Facts.

Lemma uniform_unit a b g : unit_stream g -> unit_stream (snd (Py.uniform a b g)).
Proof. intros H n. apply H. Qed.

Lemma aircraft_start_bounds (Random_seeded : Z -> Py.Random) (id : nat) :
  unit_stream (Random_seeded (Z.of_nat id * 7331)%Z) ->
  start_ranges (aircraft_start Random_seeded id) /\
  ac_id (aircraft_start Random_seeded id) = id /\
  unit_stream (rng (aircraft_start Random_seeded id)).
Proof.
  intros Hg. unfold aircraft_start, Py.uniform, Py.random, start_ranges.
  cbn [fst snd alt spd hdg lat lon rng ac_id Py.stream Py.consumed].
  set (g := Random_seeded _) in *.
  split; [|split; [reflexivity | intros n; apply Hg]].
  split; [|split; [|split; [|split]]];
    (apply scaled_draw_range; [apply Hg | vm_compute; reflexivity ..]).
Qed.


(** X1.  A task starts within 60 degrees of latitude, 120 degrees of
    longitude, between 10000 and 39000 ft, between 250 and 480 kt and
    with a heading in [0, 360], under the id it was given, whatever the
    seeded generator returns in [0, 1): each bound of [uniform] holds
    in binary64. *)
Theorem aircraft_starts_within_ranges (Random_seeded : Z -> Py.Random) (id : nat) :
  unit_stream (Random_seeded (Z.of_nat id * 7331)%Z) ->
  start_ranges (aircraft_start Random_seeded id) /\
  ac_id (aircraft_start Random_seeded id) = id.
Proof.
  intros Hg. destruct (aircraft_start_bounds Random_seeded id Hg) as (H & Hid & _).
  split; assumption.
Qed.

Lemma tick_fields now a :
  let msg := snd (aircraft_tick now a) in
  let a' := fst (aircraft_tick now a) in
  latitude msg = lat a' /\ longitude msg = lon a' /\
  (0 <= altitude_ft msg <= 60000) /\ (0 <= speed_kt msg <= 700) /\
  (0 <= heading_deg msg <= 360) /\
  hdg a' = Py.float_rem (fadd (hdg a) (heading_draw a)) 360 /\
  Py.stream (rng a') = Py.stream (rng a).
Proof.
  unfold aircraft_tick, Py.uniform, Py.random, heading_draw.
  cbn [fst snd alt spd hdg lat lon rng ac_id Py.stream Py.consumed
       latitude longitude altitude_ft speed_kt heading_deg Nat.add].
  split; [reflexivity|]. split; [reflexivity|].
  split; [apply clamp_range; lra|]. split; [apply clamp_range; lra|].
  split; [apply float_rem_360_range|]. split; reflexivity.
Qed.

(** A message built by a tick is accepted exactly when its latitude and
    its longitude are within bounds. *)
Lemma tick_validate (now : string) (a : Aircraft) :
  validate (snd (aircraft_tick now a)) = true <->
  -90 <= latitude (snd (aircraft_tick now a)) <= 90 /\
  -180 <= longitude (snd (aircraft_tick now a)) <= 180.
Proof.
  destruct (tick_fields now a) as (_ & _ & Ha & Hs & Hh & _).
  cbv zeta in Ha, Hs, Hh.
  rewrite validate_in_bounds. unfold in_bounds. tauto.
Qed.

Lemma fmod_nonneg_exact x y :
  0 < y -> 0 <= x -> Py.fmod x y == x - y * inject_Z (Qfloor (x / y)).
Proof.
  intros Hy Hx. unfold Py.fmod, Py.Qtrunc.
  assert (H0 : 0 <= x / y) by (apply Qle_shift_div_l; [exact Hy | lra]).
  apply Qle_bool_iff in H0. now rewrite H0.
Qed.

Lemma float_rem_nonneg x :
  0 <= x ->
  0 <= Py.float_rem x 360 < 360 /\
  Py.float_rem x 360 == x - 360 * inject_Z (Qfloor (x / 360)).
Proof.
  intros Hx.
  destruct (fmod_range x 360) as [Hpos _]; [reflexivity|].
  specialize (Hpos Hx).
  pose proof (fmod_nonneg_exact x 360 ltac:(reflexivity) Hx) as He.
  unfold Py.float_rem.
  destruct (Qeq_bool (Py.fmod x 360) 0) eqn:E0.
  - apply Qeq_bool_iff in E0. rewrite <- He, E0. split; [lra | reflexivity].
  - change (Qlt_bool 360 0) with false. cbn [xorb].
    destruct (Qlt_bool (Py.fmod x 360) 0) eqn:E1.
    + apply Qlt_bool_iff in E1. lra.
    + split; [lra | exact He].
Qed.

(** X2.  The heading after a tick is 360 only when the old heading plus the
    perturbation is negative: when that sum is not negative, the new
    heading is its exact remainder by 360, which is below 360. *)
Theorem heading_below_360_unless_sum_negative (now : string) (a : Aircraft) :
  0 <= fadd (hdg a) (heading_draw a) ->
  0 <= hdg (fst (aircraft_tick now a)) < 360 /\
  hdg (fst (aircraft_tick now a)) ==
    fadd (hdg a) (heading_draw a)
    - 360 * inject_Z (Qfloor (fadd (hdg a) (heading_draw a) / 360)).
Proof.
  intros H. destruct (tick_fields now a) as (_ & _ & _ & _ & _ & -> & _).
  now apply float_rem_nonneg.
Qed.




Lemma drift_within_here c lim n lo hi :
  drift_within c lim n lo hi = true -> - lim <= lo /\ hi <= lim.
Proof.
  destruct n; cbn; rewrite !andb_true_iff, !Qle_bool_iff; tauto.
Qed.

Lemma drift_within_next c lim n lo hi :
  drift_within c lim (S n) lo hi = true ->
  drift_within c lim n (fadd lo (- c)) (fadd hi c) = true.
Proof. cbn. rewrite !andb_true_iff. tauto. Qed.

Lemma drift_within_le c lim m n lo hi :
  (m <= n)%nat -> drift_within c lim n lo hi = true ->
  drift_within c lim m lo hi = true.
Proof.
  revert n lo hi. induction m as [|m IH]; intros n lo hi Hle H.
  - destruct (drift_within_here _ _ _ _ _ H) as [H1 H2].
    cbn. rewrite !andb_true_iff, !Qle_bool_iff. tauto.
  - destruct n as [|n]; [lia|].
    destruct (drift_within_here _ _ _ _ _ H) as [H1 H2].
    apply drift_within_next in H.
    cbn. rewrite !andb_true_iff, !Qle_bool_iff.
    split; [tauto|]. apply (IH n); [lia | exact H].
Qed.

Lemma fadd_between x lo d hi :
  lo <= d <= hi -> fadd x lo <= fadd x d <= fadd x hi.
Proof. intros H. unfold fadd. split; apply rnd_mono; lra. Qed.

(** One tick moves latitude and longitude by at most the literal 0.05,
    up to rounding. *)
Lemma tick_position now a :
  unit_stream (rng a) ->
  let a' := fst (aircraft_tick now a) in
  fadd (lat a) (- lit (5 # 100)) <= lat a' <= fadd (lat a) (lit (5 # 100)) /\
  fadd (lon a) (- lit (5 # 100)) <= lon a' <= fadd (lon a) (lit (5 # 100)).
Proof.
  intros Hg. unfold aircraft_tick, Py.uniform, Py.random.
  cbn [fst snd alt spd hdg lat lon rng ac_id Py.stream Py.consumed].
  pose proof (scaled_draw_range (- lit (5 # 100)) (lit (5 # 100)) _
                (Hg (Py.consumed (rng a)))
                ltac:(vm_compute; reflexivity) ltac:(vm_compute; reflexivity)
                ltac:(vm_compute; reflexivity)) as H1.
  pose proof (scaled_draw_range (- lit (5 # 100)) (lit (5 # 100)) _
                (Hg (S (Py.consumed (rng a))))
                ltac:(vm_compute; reflexivity) ltac:(vm_compute; reflexivity)
                ltac:(vm_compute; reflexivity)) as H2.
  split; apply fadd_between; assumption.
Qed.

Lemma delay_keeps cfg a :
  let a' := snd (aircraft_delay cfg a) in
  lat a' = lat a /\ lon a' = lon a /\ Py.stream (rng a') = Py.stream (rng a).
Proof. unfold aircraft_delay, Py.uniform, Py.random. cbn. done. Qed.

Lemma messages_accepted_while_within cfg nows : forall a la_lo la_hi lo_lo lo_hi,
  unit_stream (rng a) ->
  la_lo <= lat a <= la_hi -> lo_lo <= lon a <= lo_hi ->
  drift_within (lit (5 # 100)) 90 (length nows) la_lo la_hi = true ->
  drift_within (lit (5 # 100)) 180 (length nows) lo_lo lo_hi = true ->
  Forall (fun m => validate m = true) (aircraft_messages cfg nows a).
Proof.
  induction nows as [|now rest IH]; intros a la_lo la_hi lo_lo lo_hi Hg Hla Hlo Dla Dlo.
  - constructor.
  - cbn [aircraft_messages length] in *.
    destruct (tick_position now a Hg) as [Pla Plo]. cbv zeta in Pla, Plo.
    destruct (tick_fields now a) as (Fla & Flo & _ & _ & _ & _ & Fg).
    cbv zeta in Fla, Flo, Fg.
    pose proof (tick_validate now a) as V.
    apply drift_within_next in Dla, Dlo.
    destruct (drift_within_here _ _ _ _ _ Dla) as [A1 A2].
    destruct (drift_within_here _ _ _ _ _ Dlo) as [B1 B2].
    assert (Hla' : fadd la_lo (- lit (5 # 100)) <= lat (fst (aircraft_tick now a))
                   <= fadd la_hi (lit (5 # 100))).
    { destruct Pla as [P1 P2]. split.
      - eapply Qle_trans; [|exact P1]. unfold fadd; apply rnd_mono; lra.
      - eapply Qle_trans; [exact P2|]. unfold fadd; apply rnd_mono; lra. }
    assert (Hlo' : fadd lo_lo (- lit (5 # 100)) <= lon (fst (aircraft_tick now a))
                   <= fadd lo_hi (lit (5 # 100))).
    { destruct Plo as [P1 P2]. split.
      - eapply Qle_trans; [|exact P1]. unfold fadd; apply rnd_mono; lra.
      - eapply Qle_trans; [exact P2|]. unfold fadd; apply rnd_mono; lra. }
    destruct (aircraft_tick now a) as [a' msg]. cbn [fst snd] in *.
    destruct (delay_keeps cfg a') as (Kla & Klo & Kg). cbv zeta in Kla, Klo, Kg.
    constructor.
    + apply V. rewrite Fla, Flo. lra.
    + apply (IH _ (fadd la_lo (- lit (5 # 100))) (fadd la_hi (lit (5 # 100)))
                  (fadd lo_lo (- lit (5 # 100))) (fadd lo_hi (lit (5 # 100))));
        try assumption;
        first [ now rewrite Kla | now rewrite Klo
              | intros n; rewrite Kg, Fg; apply Hg ].
Qed.

Lemma messages_of_600_ticks_accepted (cfg : Config)
    (Random_seeded : Z -> Py.Random) (id : nat) (nows : list string) :
  unit_stream (Random_seeded (Z.of_nat id * 7331)%Z) ->
  (length nows <= 600)%nat ->
  Forall (fun m => validate m = true)
    (aircraft_messages cfg nows (aircraft_start Random_seeded id)).
Proof.
  intros Hg Hn.
  destruct (aircraft_start_bounds Random_seeded id Hg) as ((Hla & Hlo & _) & _ & Hu).
  apply (messages_accepted_while_within cfg nows _ (-60) 60 (-120) 120);
    try assumption.
  - apply (drift_within_le _ _ _ 600); [exact Hn|]. vm_compute. reflexivity.
  - apply (drift_within_le _ _ _ 600); [exact Hn|]. vm_compute. reflexivity.
Qed.

(** X3.  The first 600 messages of an aircraft task are all accepted by
    [validate], whatever the generator returns in [0, 1): the starting
    latitude is within 60 degrees, the longitude within 120, and a tick
    moves each by at most 0.05. *)
Theorem first_600_messages_are_accepted (cfg : Config)
    (Random_seeded : Z -> Py.Random) (id : nat) (nows : list string) :
  unit_stream (Random_seeded (Z.of_nat id * 7331)%Z) ->
  (length nows <= 600)%nat ->
  Forall (fun m => validate m = true)
    (aircraft_messages cfg nows (aircraft_start Random_seeded id)).
Proof.
  intros Hg Hn. now apply messages_of_600_ticks_accepted.
Qed.


End Walk.

(** * The accounts of a run: queue, tallies, console and log *)

Section AccountingFacts.

Lemma accepted_in_app l1 l2 : accepted_in (l1 ++ l2) = accepted_in l1 + accepted_in l2.
Proof. unfold accepted_in. now rewrite List.filter_app, length_app. Qed.

Lemma refused_in_app l1 l2 : refused_in (l1 ++ l2) = refused_in l1 + refused_in l2.
Proof. unfold refused_in. now rewrite List.filter_app, length_app. Qed.

Lemma lines_app f l1 l2 : lines f (l1 ++ l2) = lines f l1 + lines f l2.
Proof. unfold lines. now rewrite List.filter_app, length_app. Qed.

Lemma log_rows_app l1 l2 : log_rows (l1 ++ l2) = log_rows l1 ++ log_rows l2.
Proof. unfold log_rows. now rewrite List.filter_app, map_app. Qed.

Lemma div_succ p e :
  e <> 0 -> S p / e = p / e + (if Nat.eqb (S p mod e) 0 then 1 else 0).
Proof.
  intros He.
  pose proof (Nat.div_mod_eq p e) as H1.
  pose proof (Nat.mod_upper_bound p e He) as H2.
  destruct (Nat.eq_dec (S (p mod e)) e) as [E|N].
  - assert (Hs : S p = e * (p / e + 1) + 0) by lia.
    rewrite <- (Nat.div_unique (S p) e (p / e + 1) 0 ltac:(lia) Hs).
    rewrite <- (Nat.mod_unique (S p) e (p / e + 1) 0 ltac:(lia) Hs). cbn. lia.
  - assert (Hs : S p = e * (p / e) + S (p mod e)) by lia.
    assert (Hlt : S (p mod e) < e) by lia.
    rewrite <- (Nat.div_unique (S p) e (p / e) (S (p mod e)) Hlt Hs).
    rewrite <- (Nat.mod_unique (S p) e (p / e) (S (p mod e)) Hlt Hs). cbn. lia.
Qed.


Lemma accepted_in_one m : accepted_in [m] = if accepted m then 1 else 0.
Proof. unfold accepted_in. cbn. now destruct (accepted m). Qed.

Lemma refused_in_one m : refused_in [m] = if refused m then 1 else 0.
Proof. unfold refused_in. cbn. now destruct (refused m). Qed.

Lemma log_rows_one m :
  log_rows [m] =
  if is_data m then [CsvData m (if validate m then 1 else 0)] else [].
Proof. unfold log_rows. cbn. now destruct (is_data m). Qed.

(** What one pass of the body of the loop of [run] does to the tallies,
    the console and the log. *)
Lemma run_body_effects cfg n msg t t' out e :
  ControlTower_run_body cfg n msg t = (t', out, e) ->
  processed t' = processed t + (if accepted msg then 1 else 0) /\
  rejected t' = rejected t + (if refused msg then 1 else 0) /\
  lines is_bye_line out = (if is_bye msg then 1 else 0) /\
  lines is_rejected_line out = (if refused msg then 1 else 0) /\
  lines is_progress_line out + processed t / PRINT_PROGRESS_EVERY cfg
    = processed t' / PRINT_PROGRESS_EVERY cfg /\
  writer t' = writer t /\
  csv_file t' =
    (if writer t && is_data msg && negb (bool_decide (is_Some e))
     then writerow (CsvData msg (if validate msg then 1 else 0)) (csv_file t)
     else csv_file t) /\
  match e with
  | Some x => x = ZeroDivisionError /\ accepted msg = true /\
              PRINT_PROGRESS_EVERY cfg = 0
  | None => accepted msg = true -> PRINT_PROGRESS_EVERY cfg <> 0
  end.
Proof.
  unfold ControlTower_run_body, accepted, refused, is_data, is_bye. intros H.
  destruct (String.eqb (status msg) "BYE").
  - injection H as <- <- <-. cbn. rewrite andb_false_r.
    repeat split; try lia; try discriminate.
  - cbn [negb andb]. destruct (validate msg); cbn [negb andb] in *.
    + destruct (Nat.eqb (PRINT_PROGRESS_EVERY cfg) 0) eqn:E0; cbn [andb] in H.
      * apply Nat.eqb_eq in E0. injection H as <- <- <-. cbn. rewrite E0.
        rewrite andb_false_r. cbn. repeat split; try lia; try done.
      * apply Nat.eqb_neq in E0. injection H as <- <- <-.
        cbn [processed rejected writer csv_file byes].
        rewrite (div_succ (processed t) _ E0).
        rewrite andb_true_r.
        destruct (Nat.eqb (S (processed t) mod PRINT_PROGRESS_EVERY cfg) 0);
          cbn; rewrite ?andb_true_r; repeat split; try lia; try done.
    + injection H as <- <- <-. cbn. rewrite ?andb_true_r.
      repeat split; try lia; try discriminate.
Qed.



Section Preservation.

Variable cfg : Config.
Variable Random_seeded : Z -> Py.Random.
Variable can_open : string -> bool.

Abbreviation Inv := (Inv cfg can_open).
Abbreviation Inv2 := (Inv2 cfg can_open).

Ltac wsimpl :=
  cbn [running queue tasks tower console mpc pushed popped
       set_main set_task put].

Lemma Inv2_initial : Inv2 initial.
Proof.
  constructor; cbn [initial running queue tasks tower console mpc pushed
                    popped ControlTower_init processed rejected byes length];
    try done; try (unfold QUEUE_MAXSIZE; lia);
    try (now rewrite Nat.Div0.div_0_l).
Qed.

Lemma set_task_inv2 w i t' :
  Inv2 w -> (forall a m, t' = AcPut a m -> flight_ok m) ->
  Inv2 (set_task i t' w).
Proof.
  intros [J1 J2 J3 J4 J5 J6 J7 J8 J9] Ht.
  constructor; wsimpl; try done.
  intros j a m Hj. destruct (decide (i = j)) as [<-|Hne].
  - destruct (decide (i < length (tasks w))) as [Hlt|Hge].
    + rewrite list_lookup_insert_eq in Hj by done. injection Hj as E. eauto.
    + rewrite list_insert_ge in Hj by lia. eauto.
  - rewrite list_lookup_insert_ne in Hj by done. eauto.
Qed.

Lemma put_inv2 w msg :
  Inv2 w -> full QUEUE_MAXSIZE (queue w) = false -> flight_ok msg ->
  Inv2 (put msg w).
Proof.
  intros [J1 J2 J3 J4 J5 J6 J7 J8 J9] Hf Hm.
  constructor; wsimpl; try done.
  - unfold full in Hf. rewrite length_app. cbn.
    apply andb_false_iff in Hf as [Hf|Hf].
    + apply Nat.ltb_ge in Hf. unfold QUEUE_MAXSIZE in Hf. lia.
    + apply Nat.leb_gt in Hf. lia.
  - apply Forall_app. split; [done|]. constructor; [done|constructor].
Qed.

(** The main task moves on; the tallies stay and nothing of the three
    counted kinds is printed. *)
Lemma set_main_inv2 w r t out pc :
  Inv2 w ->
  processed t = processed (tower w) -> rejected t = rejected (tower w) ->
  byes t = byes (tower w) ->
  lines is_bye_line out = 0 -> lines is_rejected_line out = 0 ->
  lines is_progress_line out = 0 ->
  log_ok cfg can_open (set_main r t out pc w) ->
  Inv2 (set_main r t out pc w).
Proof.
  intros [J1 J2 J3 J4 J5 J6 J7 J8 J9] Hp Hr Hb L1 L2 L3 Hlog.
  constructor; wsimpl; try done; rewrite ?lines_app; try lia.
  rewrite Hp. lia.
Qed.


Lemma zeroed_flight_ok m : zeroed m -> flight_ok m.
Proof.
  intros (_ & _ & Ha & Hs & Hh). unfold flight_ok. rewrite Ha, Hs, Hh.
  repeat split; discriminate.
Qed.

Lemma log_ok_same_block w r t out pc :
  log_ok cfg can_open w ->
  loop_alive (mpc w) = true -> mpc w <> MGather ->
  (pc = MWindow \/ pc = MRunTest \/ pc = MRunGet \/ exists c, pc = MExit c) ->
  writer t = writer (tower w) -> csv_file t = csv_file (tower w) ->
  log_ok cfg can_open (set_main r t out pc w).
Proof.
  unfold log_ok. wsimpl. intros H Ha Hg Hpc -> ->.
  assert (Hw : written (set_main r t out pc w) = written w).
  { unfold written. wsimpl.
    destruct (mpc w); try discriminate;
      destruct Hpc as [->|[->|[->|[c ->]]]]; reflexivity. }
  destruct (mpc w) eqn:E; try discriminate; try done;
    destruct Hpc as [->|[->|[->|[c ->]]]];
    (destruct H as [H1 H2]; split; [exact H1|];
     destruct (csv_file (tower w)); [|exact H2];
     destruct H2 as (H2 & H3 & H4); unfold written in *; wsimpl;
     rewrite E in H3; done).
Qed.

Lemma main_start_inv2 w :
  Inv w -> Inv2 w -> mpc w = MStart -> Inv2 (main_start cfg can_open w).
Proof.
  intros I J Hpc.
  pose proof (inv_window _ I (or_introl Hpc)) as Hpop.
  pose proof (inv_byes _ I) as Hb. rewrite Hpop in Hb. cbn in Hb.
  pose proof (acc_accepted _ J) as Hp. rewrite Hpop in Hp. cbn in Hp.
  pose proof (acc_refused _ J) as Hr. rewrite Hpop in Hr. cbn in Hr.
  pose proof (acc_bye_lines _ J) as L1. pose proof (acc_rejected_lines _ J) as L2.
  pose proof (acc_progress_lines _ J) as L3.
  rewrite Hb in L1. rewrite Hr in L2. rewrite Hp, Nat.Div0.div_0_l in L3.
  unfold main_start, ControlTower_aenter, log_opens.
  cbn [csv_path ControlTower_init].
  assert (Hpend : forall i a m,
            map (fun i => AcCreated (i + 1)) (seq 0 (NUM_AIRCRAFT cfg)) !! i
            = Some (AcPut a m) -> flight_ok m).
  { intros i a m H. apply lookup_created in H. discriminate. }
  destruct (truthy (Some (LOG_CSV cfg))) eqn:Et;
    [destruct (can_open (LOG_CSV cfg)) eqn:Ec|];
    (constructor; wsimpl;
     cbn [processed rejected byes writer csv_file csv_path ControlTower_init];
     rewrite ?lines_app, ?L1, ?L2, ?L3, ?Hp, ?Hr, ?Hb, ?Nat.Div0.div_0_l;
     try done; try (unfold QUEUE_MAXSIZE; cbn; lia)).
  - unfold log_ok, log_opens, written. wsimpl.
    cbn [writer csv_file rows closed block_left log_rows List.filter map].
    rewrite Et, Ec. done.
  - unfold log_ok, log_opens, written. wsimpl.
    cbn [writer csv_file ControlTower_init]. rewrite Et. done.
Qed.

Lemma log_ok_exit w r out :
  log_ok cfg can_open w -> mpc w = MRunTest ->
  log_ok cfg can_open (set_main r (ControlTower_aexit (tower w)) out MGather w).
Proof.
  unfold log_ok, written, ControlTower_aexit. wsimpl. intros H E.
  rewrite E in H. destruct H as [H1 H2].
  destruct (csv_file (tower w)) as [f|] eqn:Ef;
    cbn [writer csv_file rows closed]; rewrite ?Ef.
  - destruct H2 as (H2 & H3 & H4). repeat split; assumption.
  - split; assumption.
Qed.

Lemma log_ok_done w r out :
  log_ok cfg can_open w -> mpc w = MGather ->
  log_ok cfg can_open (set_main r (tower w) out MDone w).
Proof.
  unfold log_ok, written. wsimpl. intros H E.
  rewrite E in H. destruct H as [H1 H2]. split; [exact H1|].
  destruct (csv_file (tower w)) as [f|]; [|exact H2].
  destruct H2 as (H2 & H3 & H4). cbn [block_left] in *.
  repeat split; assumption.
Qed.

Lemma main_inv2 w w' :
  Inv w -> Inv2 w -> main cfg can_open w = Some w' -> Inv2 w'.
Proof.
  intros I J H. unfold main in H.
  destruct (mpc w) eqn:Hpc; try discriminate.
  - injection H as <-. now apply main_start_inv2.
  - injection H as <-.
    apply set_main_inv2; try done.
    apply log_ok_same_block; try apply (acc_log _ J); try done;
      rewrite ?Hpc; try done; eauto 7.
  - destruct (ControlTower_run_test _ _ _); injection H as <-.
    + apply set_main_inv2; try done.
      apply log_ok_same_block; try apply (acc_log _ J); try done;
      rewrite ?Hpc; try done; eauto 7.
    + destruct (aexit_tallies (tower w)) as (Hp & Hr & Hb).
      apply set_main_inv2; try done.
      apply log_ok_exit; [apply (acc_log _ J) | exact Hpc].
  - destruct (forallb is_done (tasks w)); [|discriminate]. injection H as <-.
    apply set_main_inv2; try done.
    apply log_ok_done; [apply (acc_log _ J) | exact Hpc].
Qed.

Lemma removelast_snoc (l : list Message) m : removelast (l ++ [m]) = l.
Proof. apply removelast_last. Qed.

Lemma run_get_inv2 b w w' :
  Inv w -> Inv2 w -> ControlTower_run_get cfg b w = Some w' -> Inv2 w'.
Proof.
  intros I J H. unfold ControlTower_run_get in H.
  destruct (mpc w) eqn:Hpc; try discriminate.
  destruct b.
  - injection H as <-.
    apply set_main_inv2; try done.
    apply log_ok_same_block; try apply (acc_log _ J); try done;
      rewrite ?Hpc; try done; eauto 7.
  - destruct (queue w) as [|msg rest] eqn:Hq; [discriminate|].
    destruct (ControlTower_run_body _ _ _ _) as [[t out] e] eqn:Eh.
    destruct (run_body_effects _ _ _ _ _ _ _ Eh)
      as (Ep & Er & L1 & L2 & L3 & Ew & Ef & Ee).
    destruct (run_body_tallies _ _ _ _ _ _ _ Eh) as [_ Eb].
    destruct (aexit_tallies t) as (Hp' & Hr' & Hb').
    pose proof (acc_log _ J) as Hlog. unfold log_ok in Hlog.
    rewrite Hpc in Hlog. destruct Hlog as [Hw Hfile].
    unfold written in Hfile. rewrite Hpc in Hfile. cbn [block_left] in Hfile.
    destruct J as [J1 J2 J3 J4 J5 J6 J7 J8 J9].
    rewrite Hq in J1. cbn [length] in J1.
    destruct e as [e|]; injection H as <-;
      (constructor; wsimpl;
       rewrite ?accepted_in_app, ?refused_in_app, ?accepted_in_one,
         ?refused_in_one, ?lines_app, ?Hp', ?Hr', ?Hb';
       try done; try lia).
    + destruct Ee as (-> & Ea & E0).
      assert (Hft : csv_file t = csv_file (tower w)).
      { rewrite Ef. now rewrite andb_false_r. }
      unfold log_ok, written, ControlTower_aexit. wsimpl.
      rewrite removelast_snoc, Hft.
      destruct (csv_file (tower w)) as [f|] eqn:Ecf;
        cbn [writer csv_file rows closed block_left]; rewrite ?Hft, ?Ecf, ?Ew.
      * destruct Hfile as (H1 & H2 & H3). repeat split; assumption.
      * split; assumption.
    + unfold log_ok, written. wsimpl. rewrite Ew. split; [exact Hw|].
      rewrite andb_true_r in Ef. rewrite Ef, Hw.
      rewrite log_rows_app, log_rows_one.
      destruct (csv_file (tower w)) as [f|]; cbn [block_left].
      * destruct Hfile as (H1 & H2 & H3). rewrite H1. cbn [andb].
        destruct (is_data msg); cbn [writerow rows closed].
        -- rewrite H2. repeat split; try assumption.
        -- rewrite app_nil_r. repeat split; assumption.
      * rewrite Hfile. cbn. reflexivity.
Qed.

#[local] Arguments aircraft_tick : simpl never.
#[local] Arguments aircraft_start : simpl never.
#[local] Arguments aircraft_delay : simpl never.

Lemma aircraft_task_inv2 i now w w' :
  Inv w -> Inv2 w ->
  aircraft_task cfg Random_seeded i now w = Some w' -> Inv2 w'.
Proof.
  intros I J H. unfold aircraft_task in H.
  destruct (tasks w !! i) as [t|] eqn:Hi; [|discriminate].
  cbn [mbind option_bind] in H.
  destruct (inv_task _ I _ _ Hi) as [Hwf _].
  destruct t; cbn in Hwf.
  - injection H as <-. apply set_task_inv2; [done|discriminate].
  - destruct (running w).
    + destruct (tick_fields now a) as (_ & _ & F1 & F2 & F3 & _).
      cbv zeta in F1, F2, F3.
      destruct (aircraft_tick now a) as [a' msg]. cbn [fst snd] in *.
      injection H as <-. apply set_task_inv2; [done|].
      intros a0 m0 [= <- <-]. done.
    + injection H as <-. apply set_task_inv2; [done|discriminate].
  - destruct (full _ _) eqn:Ef; [discriminate|].
    destruct (aircraft_delay cfg a) as [d a'].
    injection H as <-. apply set_task_inv2; [|discriminate].
    apply put_inv2; try done. eapply acc_pending; eauto.
  - injection H as <-. apply set_task_inv2; [done|discriminate].
  - destruct (full _ _) eqn:Ef; [discriminate|].
    injection H as <-. apply set_task_inv2; [|discriminate].
    apply put_inv2; try done. apply zeroed_flight_ok. tauto.
  - discriminate.
Qed.

Lemma log_ok_ext w w' :
  mpc w' = mpc w -> tower w' = tower w -> popped w' = popped w ->
  log_ok cfg can_open w -> log_ok cfg can_open w'.
Proof. unfold log_ok, written. intros -> -> ->. done. Qed.

Lemma log_ok_killed w r out c :
  log_ok cfg can_open w -> loop_alive (mpc w) = true ->
  log_ok cfg can_open (set_main r (tower w) out (MExit c) w).
Proof.
  unfold log_ok, written. wsimpl. intros H Ha.
  destruct (mpc w); try discriminate;
    (destruct H as [H1 H2]; split; [exact H1|];
     destruct (csv_file (tower w)); [|exact H2];
     destruct H2 as (H2 & H3 & _); repeat split; assumption).
Qed.

Lemma handle_sig_inv2 w w' : Inv2 w -> handle_sig w = Some w' -> Inv2 w'.
Proof.
  intros J H. unfold handle_sig in H.
  destruct (loop_alive (mpc w)) eqn:Ha; [|discriminate].
  pose proof (acc_log _ J) as Hlog.
  destruct (running w); injection H as <-;
    (apply set_main_inv2; try done);
    first [ now apply log_ok_killed
          | eapply log_ok_ext; [| | |exact Hlog]; reflexivity ].
Qed.

Lemma step_inv2 l w w' :
  Inv w -> Inv2 w -> step cfg Random_seeded can_open l w = Some w' -> Inv2 w'.
Proof.
  intros I J H. destruct l; cbn [step] in H.
  - eapply main_inv2; eauto.
  - eapply run_get_inv2; eauto.
  - destruct (loop_alive (mpc w)); [|discriminate].
    eapply aircraft_task_inv2; eauto.
  - eapply handle_sig_inv2; eauto.
Qed.

Lemma exec_inv2 ls w w' :
  Inv w -> Inv2 w -> exec cfg Random_seeded can_open ls w = Some w' -> Inv2 w'.
Proof.
  revert w. induction ls as [|l ls IH]; intros w I J H; cbn in H.
  - now injection H as <-.
  - destruct (step cfg Random_seeded can_open l w) as [w1|] eqn:E;
      [|discriminate]. cbn in H.
    eapply IH; [| |exact H].
    + eapply step_inv; eauto.
    + eapply step_inv2; eauto.
Qed.

Lemma reachable_inv2 w : reachable cfg Random_seeded can_open w -> Inv2 w.
Proof.
  intros [ls H]. eapply exec_inv2; [apply Inv_initial | apply Inv2_initial | exact H].
Qed.
End Preservation.

End AccountingFacts.

Section AccountingTheorems.

Variable cfg : Config.
Variable Random_seeded : Z -> Py.Random.
Variable can_open : string -> bool.

Abbreviation reach := (reachable cfg Random_seeded can_open).
Abbreviation run_step := (step cfg Random_seeded can_open).

(** X4.  The queue never holds more than [QUEUE_MAXSIZE] messages, and a task
    whose [put] finds it full cannot move: its message is neither
    dropped nor queued, it stays pending. *)
Theorem queue_never_exceeds_maxsize (w : World) :
  reach w ->
  length (queue w) <= QUEUE_MAXSIZE /\
  forall i now t,
    tasks w !! i = Some t ->
    (exists a m, t = AcPut a m) \/ (exists m, t = AcBye m) ->
    length (queue w) = QUEUE_MAXSIZE ->
    run_step (LAircraft i now) w = None.
Proof.
  intros Hr. apply reachable_inv2 in Hr as J. split; [apply (acc_queue _ J)|].
  intros i now t Hi Ht Hfull. cbn [step]. destruct (loop_alive (mpc w)); [|done].
  unfold aircraft_task. rewrite Hi. cbn [mbind option_bind].
  assert (Hf : full QUEUE_MAXSIZE (queue w) = true).
  { unfold full. rewrite Hfull. apply andb_true_iff. split.
    - reflexivity.
    - apply Nat.leb_refl. }
  destruct Ht as [(a & m & ->)|(m & ->)]; now rewrite Hf.
Qed.

(** X5.  [processed] counts the data messages taken from the queue that
    [validate] accepts, and [rejected] those that it refuses. *)
Theorem tallies_split_by_verdict (w : World) :
  reach w ->
  processed (tower w) = accepted_in (popped w) /\
  rejected (tower w) = refused_in (popped w).
Proof.
  intros Hr. apply reachable_inv2 in Hr as J.
  split; [apply (acc_accepted _ J) | apply (acc_refused _ J)].
Qed.

(** X6.  When the log opens, it holds the header and then one row per data
    message taken from the queue, in the order taken, flagged 1 or 0 as
    [validate] accepts it or not, and no row for a BYE message; it is
    open while [main] is inside the [async with] block and closed once
    [main] has left it, normally or by an exception of [run].  When the
    path is empty no file is ever opened. *)
Theorem log_has_one_row_per_data_message (w : World) :
  reach w ->
  mpc w <> MStart -> mpc w <> MRaised OSError ->
  (log_opens cfg can_open = true ->
   exists f, csv_file (tower w) = Some f /\
     rows f = CsvHeader fieldnames :: log_rows (written w) /\
     ((forall c, mpc w <> MExit c) -> closed f = block_left (mpc w))) /\
  (log_opens cfg can_open = false -> csv_file (tower w) = None).
Proof.
  intros Hr H1 H2. apply reachable_inv2 in Hr as J.
  pose proof (acc_log _ J) as L. unfold log_ok in L.
  destruct (mpc w) as [| | | | | |[|]|c] eqn:E; try done;
    destruct L as [Lw Lf];
    (destruct (csv_file (tower w)) as [f|];
     [destruct Lf as (L1 & L2 & L3); split;
      [intros _; exists f; repeat split; try done;
       try (intros Hc; exfalso; now apply (Hc c))
      | intros Hn; congruence]
     | split; [intros Hn; congruence | done]]).
Qed.

(** X7.  The console has one termination notice per BYE counted, one
    rejection warning per message rejected, and one progress line per
    [PRINT_PROGRESS_EVERY] messages processed. *)
Theorem console_matches_tallies (w : World) :
  reach w ->
  lines is_bye_line (console w) = byes (tower w) /\
  lines is_rejected_line (console w) = rejected (tower w) /\
  lines is_progress_line (console w)
    = processed (tower w) / PRINT_PROGRESS_EVERY cfg.
Proof.
  intros Hr. apply reachable_inv2 in Hr as J.
  split; [apply (acc_bye_lines _ J)|].
  split; [apply (acc_rejected_lines _ J) | apply (acc_progress_lines _ J)].
Qed.

(** X8.  Every message ever put on the queue has its altitude, speed and
    heading within the bounds of [validate], whatever the generators
    return: the tower can reject a message only for its latitude or its
    longitude. *)
Theorem tower_rejects_only_for_position (w : World) (m : Message) :
  reach w -> In m (pushed w) ->
  flight_ok m /\ (validate m = true <-> position_ok m).
Proof.
  intros Hr Hin. apply reachable_inv2 in Hr as J.
  pose proof (acc_flight _ J) as F. rewrite Forall_forall in F.
  assert (Hf : flight_ok m) by (apply F; now apply list_elem_of_In).
  split; [exact Hf|]. rewrite validate_in_bounds.
  unfold in_bounds, position_ok, flight_ok in *. tauto.
Qed.

(** X9.  No message is lost, duplicated or reordered between the tasks
    and the tower: the messages taken so far followed by those still
    queued are the messages put, in the order put, whatever timeouts,
    signals and exceptions occurred. *)
Theorem no_message_lost_or_reordered (w : World) :
  reach w -> pushed w = popped w ++ queue w.
Proof. intros Hr. apply reachable_inv in Hr. apply (inv_hist _ Hr). Qed.

(** X10.  Once the tower has taken the BYE message of an aircraft, it takes no
    further message of that aircraft, and none is left in the queue. *)
Theorem nothing_follows_a_bye (w : World) (l1 l2 : list Message) (m : Message) :
  reach w ->
  popped w = l1 ++ m :: l2 -> is_bye m = true ->
  sent_by (aircraft_id m) l2 = [] /\ sent_by (aircraft_id m) (queue w) = [].
Proof.
  intros Hr Hp Hb. apply reachable_inv in Hr as I.
  pose proof (inv_hist _ I) as Hh. rewrite Hp in Hh.
  assert (Hin : In m (pushed w)).
  { rewrite Hh. apply in_or_app. left. apply in_or_app. right. now left. }
  pose proof (inv_ids _ I) as Hids. rewrite Forall_forall in Hids.
  pose proof (Hids m ltac:(now apply list_elem_of_In)) as Hid.
  destruct (aircraft_id m) as [|i] eqn:Eid; [lia|].
  assert (Hi : i < length (tasks w)).
  { rewrite (inv_len _ I). destruct (mpc w) eqn:E; try lia.
    pose proof (inv_window _ I (or_introl E)) as Hpop.
    rewrite Hp in Hpop. now destruct l1. }
  apply lookup_lt_is_Some_2 in Hi as [t Ht].
  destruct (inv_task _ I _ _ Ht) as [_ He].
  assert (Hs : sent_by (S i) (pushed w)
               = sent_by (S i) l1 ++ m :: sent_by (S i) (l2 ++ queue w)).
  { rewrite Hh, <- app_assoc, sent_by_app. cbn [app].
    change (m :: l2 ++ queue w) with ([m] ++ (l2 ++ queue w)).
    rewrite sent_by_app, sent_by_one, Eid, Nat.eqb_refl. reflexivity. }
  assert (Hnil : sent_by (S i) (l2 ++ queue w) = []).
  { destruct (is_done t) eqn:Ed.
    - destruct t; try discriminate. destruct He as (l & bye & Hl & Hd & _).
      rewrite Hs in Hl.
      destruct (sent_by (S i) (l2 ++ queue w)) as [|x xs] eqn:Ex; [done|].
      exfalso.
      destruct (exists_last (l:=x :: xs)) as (l' & y & El); [done|].
      rewrite El in Hl.
      replace (sent_by (S i) l1 ++ m :: l' ++ [y])
        with ((sent_by (S i) l1 ++ m :: l') ++ [y]) in Hl
        by (now rewrite <- app_assoc).
      apply app_inj_tail in Hl as [<- _].
      unfold data_only in Hd. rewrite Forall_forall in Hd.
      assert (Hm : is_data m = true).
      { apply Hd. apply list_elem_of_In. apply in_or_app. right. now left. }
      unfold is_data in Hm. rewrite Hb in Hm. discriminate.
    - rewrite emitted_running in He by done. exfalso.
      unfold data_only in He. rewrite Forall_forall in He.
      assert (Hm : is_data m = true).
      { apply He. apply list_elem_of_In. rewrite Hs.
        apply in_or_app. right. now left. }
      unfold is_data in Hm. rewrite Hb in Hm. discriminate. }
  rewrite sent_by_app in Hnil. apply app_eq_nil in Hnil. exact Hnil.
Qed.

End AccountingTheorems.

(** * Signals *)

Section Signals.

Variable cfg : Config.
Variable Random_seeded : Z -> Py.Random.
Variable can_open : string -> bool.

Abbreviation reach := (reachable cfg Random_seeded can_open).
Abbreviation run_step := (step cfg Random_seeded can_open).
Abbreviation run_exec := (exec cfg Random_seeded can_open).

Ltac wsimpl :=
  cbn [running queue tasks tower console mpc pushed popped
       set_main set_task put].

#[local] Arguments aircraft_tick : simpl never.
#[local] Arguments aircraft_start : simpl never.
#[local] Arguments aircraft_delay : simpl never.

Lemma step_keeps_stop l w w' :
  run_step l w = Some w' -> mpc w <> MStart -> running w = false ->
  running w' = false /\ mpc w' <> MStart.
Proof.
  intros H Hpc Hr. destruct l; cbn [step] in H.
  - unfold main in H. destruct (mpc w) eqn:E; try done.
    + injection H as <-. done.
    + destruct (ControlTower_run_test _ _ _); injection H as <-; done.
    + destruct (forallb _ _); [|done]. injection H as <-. done.
  - unfold ControlTower_run_get in H. destruct (mpc w) eqn:E; try done.
    destruct timed_out; [injection H as <-; done|].
    destruct (queue w); [done|].
    destruct (ControlTower_run_body _ _ _ _) as [[t out] [e|]];
      injection H as <-; done.
  - destruct (loop_alive (mpc w)); [|done]. unfold aircraft_task in H.
    destruct (tasks w !! i) as [t|]; [|done]. cbn [mbind option_bind] in H.
    destruct t; try done.
    + injection H as <-. done.
    + rewrite Hr in H. injection H as <-. done.
    + destruct (full _ _); [done|]. destruct (aircraft_delay cfg a).
      injection H as <-. done.
    + injection H as <-. done.
    + destruct (full _ _); [done|]. injection H as <-. done.
  - unfold handle_sig in H. destruct (loop_alive (mpc w)) eqn:Ea; [|done].
    rewrite Hr in H. injection H as <-. done.
Qed.

(** X11.  Once [stop_event] is cleared it is never set again: whatever the
    schedule after that, the signals included, [running] stays false. *)
Theorem stop_signal_is_never_withdrawn (ls : list Label) (w w' : World) :
  run_exec ls w = Some w' -> mpc w <> MStart -> running w = false ->
  running w' = false.
Proof.
  revert w. induction ls as [|l ls IH]; intros w H Hpc Hr; cbn in H.
  - now injection H as <-.
  - destruct (run_step l w) as [w1|] eqn:E; [|discriminate]. cbn in H.
    destruct (step_keeps_stop _ _ _ E Hpc Hr) as [Hr1 Hpc1].
    now apply (IH w1).
Qed.

(** X12.  A signal stops the run gracefully only during the window: there, if
    [stop_event] is still set, the handler clears it and [main] keeps
    sleeping.  [stop_event] is set only during the window, so after it,
    while the tower drains the queue or [main] waits for the tasks, any
    signal, even the first, ends the run with exit status 1. *)
Theorem signal_after_the_window_exits (w : World) :
  reach w ->
  (running w = true -> loop_alive (mpc w) = true ->
   mpc w = MWindow /\
   run_step LSignal w
     = Some (set_main false (tower w) [InfoStopRequested] MWindow w)) /\
  (in_loop w \/ mpc w = MGather ->
   run_step LSignal w = Some (set_main false (tower w) [] (MExit 1) w)).
Proof.
  intros Hr. apply reachable_inv in Hr as I.
  pose proof (inv_stop _ I) as Hs. unfold in_loop, loop_exited in *.
  split.
  - intros Hrun Ha.
    assert (Hpc : mpc w = MWindow).
    { destruct (mpc w); try discriminate; try reflexivity;
        (assert (true = false); [rewrite <- Hrun; apply Hs; tauto | discriminate]). }
    split; [exact Hpc|]. cbn [step]. unfold handle_sig. now rewrite Ha, Hrun, Hpc.
  - intros Hl. cbn [step]. unfold handle_sig.
    assert (Hrun : running w = false) by (apply Hs; tauto).
    rewrite Hrun. destruct Hl as [[->| ->]| ->]; reflexivity.
Qed.

(** X13.  With no aircraft nothing is ever put on the queue, and when the log
    opens the run is four steps of [main]: the window, its end, the
    test of the loop, which is left at once, and [gather]; the tallies
    are zero and the log holds its header only. *)
Theorem run_without_aircraft :
  NUM_AIRCRAFT cfg = 0 ->
  (forall w, reach w -> pushed w = [] /\ tasks w = []) /\
  (log_opens cfg can_open = true ->
   exists w,
     run_exec [LMain; LMain; LMain; LMain] initial = Some w /\
     mpc w = MDone /\
     processed (tower w) = 0 /\ rejected (tower w) = 0 /\ byes (tower w) = 0 /\
     csv_file (tower w) = Some (mkCsvFile [CsvHeader fieldnames] true) /\
     console w = [InfoRunning (RUNTIME_SECONDS cfg) 0; TowerFinal 0 0 0;
                  InfoComplete (LOG_CSV cfg)]).
Proof.
  intros Hn. split.
  - intros w Hr. apply reachable_inv in Hr as I.
    pose proof (inv_ids _ I) as Hids. pose proof (inv_len _ I) as Hlen.
    split.
    + destruct (pushed w) as [|m l]; [done|].
      apply Forall_cons_1 in Hids as [Hm _]. lia.
    + destruct (tasks w); [done|]. cbn in Hlen. destruct (mpc w); lia.
  - intros Ho. unfold log_opens in Ho. apply andb_true_iff in Ho as [Ht Hc].
    set (t1 := mkControlTower (Some (LOG_CSV cfg)) 0 0 0 true
                 (Some (mkCsvFile [CsvHeader fieldnames] false))).
    set (out1 := [InfoRunning (RUNTIME_SECONDS cfg) 0]).
    set (w1 := mkWorld true [] [] t1 out1 MWindow [] []).
    set (w2 := mkWorld false [] [] t1 out1 MRunTest [] []).
    set (w3 := mkWorld false [] [] (ControlTower_aexit t1)
                 (out1 ++ [TowerFinal 0 0 0]) MGather [] []).
    set (w4 := mkWorld false [] [] (ControlTower_aexit t1)
                 ((out1 ++ [TowerFinal 0 0 0]) ++ [InfoComplete (LOG_CSV cfg)])
                 MDone [] []).
    assert (S1 : run_step LMain initial = Some w1).
    { cbn [step]. unfold main, main_start, ControlTower_aenter.
      cbn [mpc initial csv_path ControlTower_init].
      rewrite Ht, Hc, Hn. reflexivity. }
    assert (S2 : run_step LMain w1 = Some w2) by reflexivity.
    assert (S3 : run_step LMain w2 = Some w3).
    { cbn [step]. unfold main, ControlTower_run_test. cbn [mpc w2 running].
      rewrite Hn. reflexivity. }
    assert (S4 : run_step LMain w3 = Some w4) by reflexivity.
    exists w4. split.
    + cbn [exec]. rewrite S1. cbn [mbind option_bind]. rewrite S2.
      cbn [mbind option_bind]. rewrite S3. cbn [mbind option_bind].
      rewrite S4. reflexivity.
    + repeat split.
Qed.

End Signals.

(** * Completion, console and the progress test *)

Section Completion.

Variable cfg : Config.
Variable Random_seeded : Z -> Py.Random.
Variable can_open : string -> bool.

Abbreviation reach := (reachable cfg Random_seeded can_open).
Abbreviation run_step := (step cfg Random_seeded can_open).
Abbreviation run_exec := (exec cfg Random_seeded can_open).
Abbreviation Inv := (Inv cfg can_open).
Abbreviation N := (NUM_AIRCRAFT cfg).

Ltac wsimpl :=
  cbn [running queue tasks tower console mpc pushed popped
       set_main set_task put].

#[local] Arguments aircraft_tick : simpl never.
#[local] Arguments aircraft_start : simpl never.
#[local] Arguments aircraft_delay : simpl never.





Lemma exec_app ls1 ls2 w :
  run_exec (ls1 ++ ls2) w = w' ← run_exec ls1 w; run_exec ls2 w'.
Proof.
  revert w. induction ls1 as [|l ls1 IH]; intros w; cbn; [done|].
  destruct (run_step l w); cbn; [apply IH|done].
Qed.




(** ** The console *)

Lemma console_ok_initial : console_ok cfg initial.
Proof. reflexivity. Qed.

Lemma aenter_error t e : ControlTower_aenter can_open t = inl e -> e = OSError.
Proof.
  unfold ControlTower_aenter. destruct (csv_path t); [|discriminate].
  destruct (truthy _); [|discriminate]. destruct (can_open _); [discriminate|].
  now intros [= <-].
Qed.

Lemma step_console l w w' :
  Inv w -> console_ok cfg w -> run_step l w = Some w' -> console_ok cfg w'.
Proof.
  intros I C H. unfold console_ok in *. destruct l; cbn [step] in H.
  - unfold main in H. destruct (mpc w) eqn:Hpc; try discriminate.
    + injection H as <-. unfold main_start.
      destruct (ControlTower_aenter _ _) as [e|t] eqn:Ea; wsimpl.
      * apply aenter_error in Ea as ->. now rewrite C.
      * exists []. now rewrite C.
    + injection H as <-. wsimpl. destruct C as [out ->]. exists out.
      now rewrite app_nil_r.
    + destruct (ControlTower_run_test _ _ _); injection H as <-; wsimpl;
        destruct C as [out ->].
      * exists out. now rewrite app_nil_r.
      * exists out. destruct (aexit_tallies (tower w)) as (-> & -> & ->). done.
    + destruct (forallb _ _); [|discriminate]. injection H as <-. wsimpl.
      destruct C as [out ->]. exists out. cbn. now rewrite <- app_assoc.
  - unfold ControlTower_run_get in H. destruct (mpc w) eqn:Hpc; try discriminate.
    destruct C as [out0 C]. destruct timed_out.
    + injection H as <-. wsimpl. exists out0. now rewrite C, app_nil_r.
    + destruct (queue w); [discriminate|].
      destruct (ControlTower_run_body _ _ _ _) as [[t out] e] eqn:Eb.
      destruct (run_body_effects _ _ _ _ _ _ _ Eb) as (_ & _ & _ & _ & _ & _ & _ & He).
      destruct e as [e|]; injection H as <-; wsimpl.
      * destruct He as (-> & _). exists (out0 ++ out). now rewrite C.
      * exists (out0 ++ out). now rewrite C.
  - destruct (loop_alive (mpc w)) eqn:Ha; [|discriminate].
    unfold aircraft_task in H.
    destruct (tasks w !! i) as [t|]; [|discriminate]. cbn [mbind option_bind] in H.
    destruct t; try discriminate.
    + injection H as <-. exact C.
    + destruct (running w); [destruct (aircraft_tick now a)|]; injection H as <-;
        exact C.
    + destruct (full _ _); [discriminate|]. destruct (aircraft_delay cfg a).
      injection H as <-. exact C.
    + injection H as <-. exact C.
    + destruct (full _ _); [discriminate|]. injection H as <-. exact C.
  - unfold handle_sig in H. destruct (loop_alive (mpc w)) eqn:Ha; [|discriminate].
    destruct (running w) eqn:Hr.
    + injection H as <-. wsimpl.
      destruct (mpc w) eqn:Hpc; try discriminate;
        try (assert (true = false) as [=];
             rewrite <- Hr; apply (inv_stop _ I);
             unfold in_loop, loop_exited; tauto).
      destruct C as [out ->]. now exists (out ++ [InfoStopRequested]).
    + injection H as <-. wsimpl.
      destruct (mpc w); try discriminate; destruct C as [out C];
        rewrite C, app_nil_r; eauto.
Qed.

Lemma exec_console ls : forall w w',
  Inv w -> console_ok cfg w -> run_exec ls w = Some w' -> console_ok cfg w'.
Proof.
  induction ls as [|l ls IH]; intros w w' I C H; cbn in H.
  - now injection H as <-.
  - destruct (run_step l w) as [w1|] eqn:E; [|discriminate]. cbn in H.
    eapply IH; [| |exact H].
    + eapply step_inv; eauto.
    + eapply step_console; eauto.
Qed.

(** ** The modulo of the progress line *)





(** X15.  A run in which [main] returns has printed the banner first and, last,
    the summary with the final tallies and then the completion notice;
    a run that could not open its log has printed nothing. *)
Theorem completed_run_prints_summary (w : World) :
  reach w ->
  (mpc w = MDone ->
   exists out,
     console w =
       InfoRunning (RUNTIME_SECONDS cfg) N :: out ++
       [TowerFinal (processed (tower w)) (rejected (tower w)) N;
        InfoComplete (LOG_CSV cfg)]) /\
  (mpc w = MRaised OSError -> console w = []).
Proof.
  intros Hr. pose proof (reachable_inv _ _ _ _ Hr) as I.
  destruct Hr as [ls Hr].
  pose proof (exec_console ls _ _ (Inv_initial cfg can_open) console_ok_initial Hr)
    as C.
  unfold console_ok in C. split; intros Hpc; rewrite Hpc in C.
  - destruct (exited_drained cfg can_open w I) as (Hb & _); [now right|].
    rewrite Hb in C. exact C.
  - exact C.
Qed.


End Completion.

(** * The seeded walk of each aircraft in a run *)

Section TraceFacts.

Variable cfg : Config.
Variable Random_seeded : Z -> Py.Random.
Variable can_open : string -> bool.

Abbreviation reach := (reachable cfg Random_seeded can_open).
Abbreviation run_step := (step cfg Random_seeded can_open).
Abbreviation run_exec := (exec cfg Random_seeded can_open).
Abbreviation Inv := (Inv cfg can_open).
Abbreviation Trace := (Trace cfg Random_seeded).

Ltac wsimpl :=
  cbn [running queue tasks tower console mpc pushed popped
       set_main set_task put].

#[local] Arguments aircraft_tick : simpl never.
#[local] Arguments aircraft_start : simpl never.
#[local] Arguments aircraft_delay : simpl never.

Lemma aircraft_messages_snoc nows now : forall a,
  aircraft_messages cfg (nows ++ [now]) a
  = aircraft_messages cfg nows a
    ++ [snd (aircraft_tick now (aircraft_walk cfg nows a))].
Proof.
  induction nows as [|n nows IH]; intros a; cbn [aircraft_messages aircraft_walk app].
  - now destruct (aircraft_tick now a).
  - destruct (aircraft_tick n a) as [a' m]. cbn [fst snd app]. now rewrite IH.
Qed.

Lemma aircraft_walk_snoc nows now : forall a,
  aircraft_walk cfg (nows ++ [now]) a
  = snd (aircraft_delay cfg (fst (aircraft_tick now (aircraft_walk cfg nows a)))).
Proof.
  induction nows as [|n nows IH]; intros a; cbn [aircraft_walk app]; [done|].
  apply IH.
Qed.

Lemma aircraft_messages_length nows : forall a,
  length (aircraft_messages cfg nows a) = length nows.
Proof.
  induction nows as [|n nows IH]; intros a; cbn [aircraft_messages length]; [done|].
  destruct (aircraft_tick n a). cbn [length]. now rewrite IH.
Qed.

Lemma data_sent_app id l1 l2 :
  data_sent id (l1 ++ l2) = data_sent id l1 ++ data_sent id l2.
Proof. unfold data_sent. now rewrite sent_by_app, List.filter_app. Qed.

Lemma data_sent_one id m :
  data_sent id [m] = if Nat.eqb (aircraft_id m) id && is_data m then [m] else [].
Proof.
  unfold data_sent. rewrite sent_by_one.
  destruct (Nat.eqb (aircraft_id m) id); cbn; [|done]. now destruct (is_data m).
Qed.

Lemma task_trace_same id t h h' :
  data_sent id h' = data_sent id h ->
  task_trace cfg Random_seeded id t h -> task_trace cfg Random_seeded id t h'.
Proof. intros E. destruct t; cbn; rewrite E; done. Qed.

Lemma set_task_trace w i t' :
  Trace w -> task_trace cfg Random_seeded (S i) t' (pushed w) ->
  Trace (set_task i t' w).
Proof.
  intros T Ht j u Hj. cbn [tasks pushed set_task put] in Hj |- *.
  destruct (decide (i = j)) as [<-|Hne].
  - destruct (decide (i < length (tasks w))) as [Hlt|Hge].
    + rewrite list_lookup_insert_eq in Hj by done. now injection Hj as <-.
    + rewrite list_insert_ge in Hj by lia. now apply T.
  - rewrite list_lookup_insert_ne in Hj by done. now apply T.
Qed.

(** A task puts a message of its own: the traces of the others stay. *)
Lemma put_trace w i t' msg :
  Trace w -> aircraft_id msg = S i ->
  task_trace cfg Random_seeded (S i) t' (pushed w ++ [msg]) ->
  Trace (set_task i t' (put msg w)).
Proof.
  intros T Hid Ht j u Hj. cbn [tasks pushed set_task put] in Hj |- *.
  destruct (decide (i = j)) as [<-|Hne].
  - destruct (decide (i < length (tasks w))) as [Hlt|Hge].
    + rewrite list_lookup_insert_eq in Hj by done. now injection Hj as <-.
    + rewrite list_insert_ge in Hj by lia.
      apply lookup_lt_Some in Hj. lia.
  - rewrite list_lookup_insert_ne in Hj by done.
    eapply task_trace_same; [|apply T; exact Hj].
    rewrite data_sent_app, data_sent_one, Hid.
    assert (E : Nat.eqb (S i) (S j) = false) by (apply Nat.eqb_neq; lia).
    rewrite E. apply app_nil_r.
Qed.

Lemma Trace_initial : Trace initial.
Proof. intros i t H. discriminate. Qed.

Lemma step_trace l w w' :
  Inv w -> Trace w -> run_step l w = Some w' -> Trace w'.
Proof.
  intros I T H. destruct l; cbn [step] in H.
  - unfold main in H. destruct (mpc w) eqn:Hpc; try discriminate.
    + injection H as <-. unfold main_start.
      destruct (ControlTower_aenter _ _); wsimpl;
        intros i t Hi; cbn [tasks pushed set_main] in Hi |- *;
        apply lookup_created in Hi as ->; done.
    + injection H as <-. exact T.
    + destruct (ControlTower_run_test _ _ _); injection H as <-; exact T.
    + destruct (forallb _ _); [|discriminate]. injection H as <-. exact T.
  - unfold ControlTower_run_get in H. destruct (mpc w) eqn:Hpc; try discriminate.
    destruct timed_out; [injection H as <-; exact T|].
    destruct (queue w); [discriminate|].
    destruct (ControlTower_run_body _ _ _ _) as [[t out] [e|]];
      injection H as <-; exact T.
  - destruct (loop_alive (mpc w)); [|discriminate]. unfold aircraft_task in H.
    destruct (tasks w !! i) as [t|] eqn:Hi; [|discriminate].
    cbn [mbind option_bind] in H.
    destruct (inv_task _ I _ _ Hi) as [Hwf _].
    pose proof (T _ _ Hi) as Ht.
    destruct t; cbn in Hwf; cbn [task_trace] in Ht.
    + (* the body is entered *)
      injection H as <-. apply set_task_trace; [done|].
      subst id. exists []. done.
    + destruct (running w).
      * (* a tick *)
        destruct (aircraft_tick now a) as [a' msg] eqn:Et.
        injection H as <-. apply set_task_trace; [done|].
        destruct Ht as (nows & Hs & ->). exists nows, now. split; [exact Hs | exact (eq_sym Et)].
      * (* the loop is left *)
        injection H as <-. apply set_task_trace; [done|].
        destruct Ht as (nows & Hs & _). now exists nows.
    + (* the put of a data message *)
      destruct (full _ _); [discriminate|].
      destruct Hwf as (Ha & Hm & Hd).
      destruct (aircraft_delay cfg a) as [d a'] eqn:Ed.
      injection H as <-. apply put_trace; [done|done|].
      destruct Ht as (nows & now0 & Hs & Et).
      exists (nows ++ [now0]). cbn [task_trace].
      rewrite data_sent_app, data_sent_one, Hm, Nat.eqb_refl, Hd. cbn [andb].
      rewrite aircraft_messages_snoc, aircraft_walk_snoc, <- Et, Hs. cbn [fst snd].
      rewrite Ed. split; reflexivity.
    + (* the end of the sleep *)
      injection H as <-. now apply set_task_trace.
    + (* the put of the BYE message *)
      destruct (full _ _); [discriminate|].
      destruct Hwf as (Hm & Hb & Hz).
      injection H as <-. apply put_trace; [done|done|].
      destruct Ht as (nows & Hs). exists nows.
      rewrite data_sent_app, data_sent_one. unfold is_data. rewrite Hb.
      rewrite andb_false_r, app_nil_r. exact Hs.
    + discriminate.
  - unfold handle_sig in H. destruct (loop_alive (mpc w)); [|discriminate].
    destruct (running w); injection H as <-; exact T.
Qed.

Lemma exec_trace ls : forall w w',
  Inv w -> Trace w -> run_exec ls w = Some w' -> Trace w'.
Proof.
  induction ls as [|l ls IH]; intros w w' I T H; cbn in H.
  - now injection H as <-.
  - destruct (run_step l w) as [w1|] eqn:E; [|discriminate]. cbn in H.
    eapply IH; [| |exact H].
    + eapply step_inv; eauto.
    + eapply step_trace; eauto.
Qed.

Lemma step_leaves_start l w w' : run_step l w = Some w' -> mpc w' <> MStart.
Proof.
  intros H. destruct l; cbn [step] in H.
  - unfold main in H. destruct (mpc w) eqn:E; try discriminate.
    + injection H as <-. unfold main_start.
      destruct (ControlTower_aenter _ _); discriminate.
    + injection H as <-. discriminate.
    + destruct (ControlTower_run_test _ _ _); injection H as <-; discriminate.
    + destruct (forallb _ _); [|discriminate]. injection H as <-. discriminate.
  - unfold ControlTower_run_get in H. destruct (mpc w) eqn:E; try discriminate.
    destruct timed_out; [injection H as <-; discriminate|].
    destruct (queue w); [discriminate|].
    destruct (ControlTower_run_body _ _ _ _) as [[t out] [e|]];
      injection H as <-; discriminate.
  - destruct (loop_alive (mpc w)) eqn:Ha; [|discriminate].
    assert (Hs : mpc w <> MStart) by (intros E; rewrite E in Ha; discriminate).
    unfold aircraft_task in H.
    destruct (tasks w !! i) as [t|]; [|discriminate]. cbn [mbind option_bind] in H.
    destruct t; try discriminate.
    + injection H as <-. exact Hs.
    + destruct (running w); [destruct (aircraft_tick now a)|]; injection H as <-;
        exact Hs.
    + destruct (full _ _); [discriminate|]. destruct (aircraft_delay cfg a).
      injection H as <-. exact Hs.
    + injection H as <-. exact Hs.
    + destruct (full _ _); [discriminate|]. injection H as <-. exact Hs.
  - unfold handle_sig in H. destruct (loop_alive (mpc w)) eqn:Ha; [|discriminate].
    destruct (running w); injection H as <-; wsimpl; [|discriminate].
    intros E; rewrite E in Ha; discriminate.
Qed.

Lemma exec_at_start ls : forall w w',
  run_exec ls w = Some w' -> mpc w' = MStart -> w' = w.
Proof.
  induction ls as [|l ls IH]; intros w w' H Hpc; cbn in H.
  - now injection H as <-.
  - destruct (run_step l w) as [w1|] eqn:E; [|discriminate]. cbn in H.
    pose proof (IH _ _ H Hpc) as ->.
    now apply step_leaves_start in E.
Qed.

Lemma task_trace_walk id t h :
  task_trace cfg Random_seeded id t h ->
  exists nows,
    data_sent id h = aircraft_messages cfg nows (aircraft_start Random_seeded id).
Proof.
  destruct t; cbn.
  - intros ->. now exists [].
  - intros (nows & H & _). now exists nows.
  - intros (nows & _ & H & _). now exists nows.
  - intros (nows & H & _). now exists nows.
  - done.
  - done.
Qed.

Lemma reachable_walk w id :
  reach w ->
  exists nows,
    data_sent id (pushed w)
    = aircraft_messages cfg nows (aircraft_start Random_seeded id).
Proof.
  intros Hr. pose proof (reachable_inv _ _ _ _ Hr) as I.
  destruct Hr as [ls Hr].
  pose proof (exec_trace ls _ _ (Inv_initial cfg can_open) Trace_initial Hr) as T.
  destruct id as [|i].
  - exists []. cbn. unfold data_sent.
    replace (sent_by 0 (pushed w)) with (@nil Message); [done|].
    symmetry. pose proof (inv_ids _ I) as Hids.
    induction (pushed w) as [|m l IH]; [done|].
    apply Forall_cons_1 in Hids as [Hm Hl]. cbn.
    destruct (Nat.eqb_spec (aircraft_id m) 0); [lia|]. now apply IH.
  - destruct (tasks w !! i) as [t|] eqn:Hi.
    + eapply task_trace_walk. apply T. exact Hi.
    + exists []. cbn. unfold data_sent.
      replace (sent_by (S i) (pushed w)) with (@nil Message); [done|].
      symmetry. apply lookup_ge_None in Hi.
      pose proof (inv_ids _ I) as Hids. pose proof (inv_len _ I) as Hlen.
      assert (Hn : NUM_AIRCRAFT cfg <= i \/ pushed w = []).
      { destruct (mpc w) eqn:Hpc; cbn in Hlen; try (left; lia).
        right. now rewrite (exec_at_start ls _ _ Hr Hpc). }
      destruct Hn as [Hn| ->]; [|done].
      induction (pushed w) as [|m l IH]; [done|].
      apply Forall_cons_1 in Hids as [Hm Hl]. cbn.
      destruct (Nat.eqb_spec (aircraft_id m) (S i)); [lia|]. now apply IH.
Qed.

(** X17.  The data messages that an aircraft has put on the queue are, in
    every run and whatever the schedule, those of the walk that its seed
    fixes: the messages of the passes of its loop from its starting
    state, for the timestamps that it read. *)
Theorem each_aircraft_sends_its_seeded_walk (w : World) (id : nat) :
  reach w ->
  exists nows,
    data_sent id (pushed w)
    = aircraft_messages cfg nows (aircraft_start Random_seeded id) /\
    length nows = length (data_sent id (pushed w)).
Proof.
  intros Hr. destruct (reachable_walk w id Hr) as [nows H].
  exists nows. split; [exact H|]. now rewrite H, aircraft_messages_length.
Qed.

Lemma data_sent_length id l : length (data_sent id l) <= length l.
Proof.
  unfold data_sent, sent_by.
  etransitivity; [apply List.filter_length_le|apply List.filter_length_le].
Qed.

Lemma refused_in_none l :
  Forall (fun m => is_data m = true -> validate m = true) l -> refused_in l = 0.
Proof.
  unfold refused_in, refused. induction 1 as [|m l Hm _ IH]; cbn; [done|].
  destruct (is_data m); cbn; [|exact IH]. now rewrite Hm.
Qed.

(** X18.  While no aircraft has put more than 600 data messages, the tower has
    rejected nothing, whatever the generators return in [0, 1). *)
Theorem no_rejection_within_600_messages_each (w : World) :
  reach w ->
  (forall id, unit_stream (Random_seeded (Z.of_nat id * 7331)%Z)) ->
  (forall id, length (data_sent id (pushed w)) <= 600) ->
  rejected (tower w) = 0 /\
  Forall (fun m => is_data m = true -> validate m = true) (pushed w).
Proof.
  intros Hr Hg Hn.
  assert (Hall : Forall (fun m => is_data m = true -> validate m = true) (pushed w)).
  { apply Forall_forall. intros m Hin Hd. apply list_elem_of_In in Hin.
    destruct (reachable_walk w (aircraft_id m) Hr) as [nows Hw].
    assert (Hm : In m (data_sent (aircraft_id m) (pushed w))).
    { unfold data_sent. apply List.filter_In. split; [|exact Hd].
      apply sent_by_In. done. }
    assert (Hlen : length nows <= 600).
    { specialize (Hn (aircraft_id m)).
      now rewrite Hw, aircraft_messages_length in Hn. }
    pose proof (messages_of_600_ticks_accepted cfg Random_seeded
                  (aircraft_id m) nows (Hg _) Hlen) as Hv.
    rewrite <- Hw in Hv. rewrite Forall_forall in Hv.
    apply Hv. now apply list_elem_of_In. }
  split; [|exact Hall].
  pose proof (reachable_inv2 _ _ _ _ Hr) as J.
  rewrite (acc_refused _ J). apply refused_in_none.
  pose proof (reachable_inv _ _ _ _ Hr) as I.
  rewrite (inv_hist _ I) in Hall. now apply Forall_app in Hall as [H _].
Qed.

End TraceFacts.

(** * The further properties on sample runs *)

Section WalkSamples.
Local Open Scope Q_scope.

Lemma aircraft_starts_within_ranges_witness :
  start_ranges (aircraft_start half_rng 1) /\
  ac_id (aircraft_start half_rng 1) = 1%nat.
Proof.
  exact (aircraft_starts_within_ranges half_rng 1 (half_rng_unit _)).
Defined.

Lemma heading_below_360_unless_sum_negative_witness :
  hdg (fst (aircraft_tick "t" (aircraft_start half_rng 1))) < 360.
Proof.
  destruct (heading_below_360_unless_sum_negative "t"
              (aircraft_start half_rng 1)) as ((_ & H) & _).
  - apply Qle_bool_iff. vm_compute. reflexivity.
  - exact H.
Defined.

Lemma first_600_messages_are_accepted_witness :
  Forall (fun m => validate m = true)
    (aircraft_messages CONFIG ["t0"; "t1"; "t2"] (aircraft_start half_rng 1)).
Proof.
  apply (first_600_messages_are_accepted CONFIG half_rng 1 ["t0"; "t1"; "t2"]).
  - apply half_rng_unit.
  - cbn. lia.
Defined.

(** The bound of 600 is the best one: with a generator that always
    returns 1 - 2^-53, the 601st message is rejected, its latitude being
    above 90. *)
Lemma message_601_can_be_rejected :
  (forall seed, unit_stream (top_rng seed)) /\
  (validate <$> last (aircraft_messages CONFIG (replicate 601 "t")
                        (aircraft_start top_rng 1))) = Some false.
Proof.
  split.
  - intros seed n. cbn. split; apply Qle_bool_iff || apply Qlt_bool_iff;
      vm_compute; reflexivity.
  - vm_compute. reflexivity.
Qed.

End WalkSamples.

Section FurtherRunSamples.

Abbreviation sample := (run_of cfg2 half_rng always_open).

Lemma run_of_reachable cfg seeded can_open ls :
  exec cfg seeded can_open ls initial = Some (run_of cfg seeded can_open ls) ->
  reachable cfg seeded can_open (run_of cfg seeded can_open ls).
Proof. intros H. exists ls. exact H. Qed.

Lemma full_run_reached : reachable cfg2 half_rng always_open (sample full_run).
Proof. apply run_of_reachable. vm_compute. reflexivity. Qed.

Lemma run_to_get_reached : reachable cfg2 half_rng always_open (sample run_to_get).
Proof. apply run_of_reachable. vm_compute. reflexivity. Qed.

Lemma run_to_get_waits : mpc (sample run_to_get) = MRunGet.
Proof. vm_compute. reflexivity. Qed.

Lemma full_run_done : mpc (sample full_run) = MDone.
Proof. vm_compute. reflexivity. Qed.

Lemma tower_rejects_only_for_position_witness :
  In first_put (pushed (sample full_run)) /\
  (validate first_put = true <-> position_ok first_put).
Proof.
  assert (Hin : In first_put (pushed (sample full_run))).
  { vm_compute. left. reflexivity. }
  split; [exact Hin|].
  destruct (tower_rejects_only_for_position cfg2 half_rng always_open
              (sample full_run) first_put full_run_reached Hin) as [_ H].
  exact H.
Defined.

Lemma queue_never_exceeds_maxsize_witness :
  length (queue (sample run_to_get)) <= QUEUE_MAXSIZE.
Proof.
  destruct (queue_never_exceeds_maxsize cfg2 half_rng always_open
              (sample run_to_get) run_to_get_reached) as [H _].
  exact H.
Defined.

Lemma no_message_lost_or_reordered_witness :
  pushed (sample run_to_get)
  = popped (sample run_to_get) ++ queue (sample run_to_get).
Proof.
  exact (no_message_lost_or_reordered cfg2 half_rng always_open
           (sample run_to_get) run_to_get_reached).
Defined.

Lemma nothing_follows_a_bye_witness :
  is_bye second_taken = true /\
  sent_by (aircraft_id second_taken) (drop 2 (popped (sample full_run))) = [] /\
  sent_by (aircraft_id second_taken) (queue (sample full_run)) = [].
Proof.
  assert (Hb : is_bye second_taken = true) by (vm_compute; reflexivity).
  assert (Hp : popped (sample full_run)
               = take 1 (popped (sample full_run)) ++
                 second_taken :: drop 2 (popped (sample full_run))).
  { vm_compute. reflexivity. }
  split; [exact Hb|].
  exact (nothing_follows_a_bye cfg2 half_rng always_open (sample full_run)
           _ _ _ full_run_reached Hp Hb).
Defined.

Lemma tallies_split_by_verdict_witness :
  processed (tower (sample full_run)) = accepted_in (popped (sample full_run)) /\
  rejected (tower (sample full_run)) = refused_in (popped (sample full_run)).
Proof.
  exact (tallies_split_by_verdict cfg2 half_rng always_open
           (sample full_run) full_run_reached).
Defined.

Lemma log_has_one_row_per_data_message_witness :
  exists f,
    csv_file (tower (sample full_run)) = Some f /\
    rows f = CsvHeader fieldnames :: log_rows (written (sample full_run)).
Proof.
  destruct (log_has_one_row_per_data_message cfg2 half_rng always_open
              (sample full_run) full_run_reached) as [H _].
  - rewrite full_run_done. discriminate.
  - rewrite full_run_done. discriminate.
  - destruct H as (f & Hf & Hrows & _); [reflexivity|].
    exists f. split; [exact Hf | exact Hrows].
Defined.

Lemma console_matches_tallies_witness :
  lines is_bye_line (console (sample full_run)) = byes (tower (sample full_run)).
Proof.
  destruct (console_matches_tallies cfg2 half_rng always_open
              (sample full_run) full_run_reached) as [H _].
  exact H.
Defined.

Lemma completed_run_prints_summary_witness :
  exists out,
    console (sample full_run) =
      InfoRunning (RUNTIME_SECONDS cfg2) (NUM_AIRCRAFT cfg2) :: out ++
      [TowerFinal (processed (tower (sample full_run)))
         (rejected (tower (sample full_run))) (NUM_AIRCRAFT cfg2);
       InfoComplete (LOG_CSV cfg2)].
Proof.
  destruct (completed_run_prints_summary cfg2 half_rng always_open
              (sample full_run) full_run_reached) as [H _].
  exact (H full_run_done).
Defined.

Lemma stop_signal_is_never_withdrawn_witness :
  running (sample full_run) = false.
Proof.
  assert (H1 : exec cfg2 half_rng always_open run_after_stop (sample run_to_stop)
               = Some (sample full_run)) by (vm_compute; reflexivity).
  assert (H2 : mpc (sample run_to_stop) <> MStart).
  { intros E. vm_compute in E. discriminate. }
  assert (H3 : running (sample run_to_stop) = false) by (vm_compute; reflexivity).
  exact (stop_signal_is_never_withdrawn cfg2 half_rng always_open
           run_after_stop (sample run_to_stop) (sample full_run) H1 H2 H3).
Defined.

Lemma signal_after_the_window_exits_witness :
  step cfg2 half_rng always_open LSignal (sample run_to_get)
  = Some (set_main false (tower (sample run_to_get)) [] (MExit 1)
            (sample run_to_get)).
Proof.
  destruct (signal_after_the_window_exits cfg2 half_rng always_open
              (sample run_to_get) run_to_get_reached) as [_ H].
  apply H. left. right. exact run_to_get_waits.
Defined.

Lemma run_without_aircraft_witness :
  exists w,
    exec cfg_no_aircraft half_rng always_open [LMain; LMain; LMain; LMain] initial
    = Some w /\ mpc w = MDone.
Proof.
  destruct (run_without_aircraft cfg_no_aircraft half_rng always_open eq_refl)
    as [_ H].
  destruct (H eq_refl) as (w & He & Hd & _).
  exists w. split; [exact He | exact Hd].
Defined.



Lemma each_aircraft_sends_its_seeded_walk_witness :
  exists nows,
    data_sent 1 (pushed (sample full_run))
    = aircraft_messages cfg2 nows (aircraft_start half_rng 1) /\
    length nows = length (data_sent 1 (pushed (sample full_run))).
Proof.
  exact (each_aircraft_sends_its_seeded_walk cfg2 half_rng always_open
           (sample full_run) 1 full_run_reached).
Defined.

Lemma no_rejection_within_600_messages_each_witness :
  rejected (tower (sample full_run)) = 0.
Proof.
  destruct (no_rejection_within_600_messages_each cfg2 half_rng always_open
              (sample full_run) full_run_reached) as [H _].
  - intros id. apply half_rng_unit.
  - intros id. etransitivity; [apply data_sent_length|].
    apply Nat.leb_le. vm_compute. reflexivity.
  - exact H.
Defined.

End FurtherRunSamples.
